(** * photo_details.py: classification, duplicate registry and naming

    A shallow embedding of [src/photo_details.py].  The script walks a
    directory tree, routes every file by its lower-cased extension,
    reads a capture date, hashes images, consults the shared dictionary
    [image_hashes] and copies the file under a derived name.

    Python strings are modelled as [string] (one [ascii] per character,
    so file names and dates are taken in the ASCII range), integers as
    [N], the dictionary [image_hashes] as a [gmap], raised
    exceptions as the left injection of a sum, and the calls that leave
    the interpreter (PIL, moviepy, imagehash, uuid, shutil) as fields of
    a [World] record that answers for every path. *)

From Stdlib Require Import NArith ZArith Ascii String List DecimalString.
From Stdlib Require DecimalN DecimalPos.
From stdpp Require Import gmap strings list fin_maps.
Import ListNotations.
Local Open Scope string_scope.

(** ** Strings the way the script uses them *)

Module PyStr.

(** [c.lower()] on one character of the ASCII range. *)
Definition lower_ascii (c : ascii) : ascii :=
  let n := N_of_ascii c in
  if ((65 <=? n) && (n <=? 90))%N then ascii_of_N (n + 32) else c.

(** [s.lower()] *)
Fixpoint lower (s : string) : string :=
  match s with
  | EmptyString => EmptyString
  | String c r => String (lower_ascii c) (lower r)
  end.

(** [str(n)] for a non-negative integer. *)
Definition str_int (n : N) : string := NilZero.string_of_uint (N.to_uint n).

(** [s.startswith(p)] *)
Fixpoint startswith (p s : string) : bool :=
  match p, s with
  | EmptyString, _ => true
  | String a p', String b s' => if Ascii.eqb a b then startswith p' s' else false
  | String _ _, EmptyString => false
  end.

(** [s.endswith(c)] for a one-character suffix. *)
Fixpoint endswith_char (c : ascii) (s : string) : bool :=
  match s with
  | EmptyString => false
  | String a EmptyString => Ascii.eqb a c
  | String _ r => endswith_char c r
  end.

(** [x in t] for a tuple of strings. *)
Definition in_tuple (x : string) (t : list string) : bool :=
  existsb (String.eqb x) t.




End PyStr.

(** ** [os.path] (POSIX flavour) *)

Module OsPath.
Import PyStr.

Definition sep : ascii := "/"%char.
Definition extsep : ascii := "."%char.

(** [posixpath.join(a, b)]: an absolute [b] replaces [a]; otherwise the
    two are glued with exactly one separator between them. *)
Definition join (a b : string) : string :=
  if startswith (String sep "") b then b
  else if (String.eqb a "" || endswith_char sep a)%bool then a ++ b
  else a ++ String sep "" ++ b.

(** [genericpath._splitext] on a name without directory separators, as
    [os.walk] hands them out: the extension starts at the last dot,
    provided a character other than the dot stands somewhere before
    it; leading dots never start an extension.  [splitext_from] scans
    from the left, [seen_name] recording that such a character has
    been met. *)
Fixpoint has_dot (s : string) : bool :=
  match s with
  | EmptyString => false
  | String c r => if Ascii.eqb c extsep then true else has_dot r
  end.

Fixpoint splitext_from (seen_name : bool) (s : string) : string * string :=
  match s with
  | EmptyString => ("", "")
  | String c r =>
      if Ascii.eqb c extsep then
        if (seen_name && negb (has_dot r))%bool then ("", s)
        else let '(root, ext) := splitext_from seen_name r in (String c root, ext)
      else let '(root, ext) := splitext_from true r in (String c root, ext)
  end.

Definition splitext (p : string) : string * string := splitext_from false p.

(** [os.path.basename] *)
Fixpoint basename (p : string) : string :=
  match p with
  | EmptyString => ""
  | String c r =>
      if Ascii.eqb c sep then basename r
      else if existsb (Ascii.eqb sep) (list_ascii_of_string r) then basename r
      else p
  end.

End OsPath.

(** ** [datetime.strptime] and [strftime] for the formats of the script *)

Module DateTime.
Import PyStr.

Record datetime := mk_datetime {
  year : N; month : N; day : N; hour : N; minute : N; second : N
}.

Definition is_digit (c : ascii) : bool :=
  let n := N_of_ascii c in ((48 <=? n) && (n <=? 57))%N.

Definition digit_val (c : ascii) : N := N_of_ascii c - 48.

Definition in_range (lo hi : N) (c : ascii) : bool :=
  is_digit c && ((lo <=? digit_val c) && (digit_val c <=? hi))%N.

(** [\s] of a [str] pattern, on the ASCII range. *)
Definition is_space (c : ascii) : bool :=
  let n := N_of_ascii c in
  (((9 <=? n) && (n <=? 13)) || ((28 <=? n) && (n <=? 32)))%N.

(** A regular-expression fragment yields its matches in the order the
    backtracking matcher tries them: value read and text left over. *)
Definition matches := list (N * string).

(** Two characters, the first in [a1..b1] and the second in [a2..b2]. *)
Definition two (a1 b1 a2 b2 : N) (s : string) : matches :=
  match s with
  | String c1 (String c2 r) =>
      if (in_range a1 b1 c1 && in_range a2 b2 c2)%bool
      then [((10 * digit_val c1 + digit_val c2)%N, r)] else []
  | _ => []
  end.

(** One character in [a..b]. *)
Definition one (a b : N) (s : string) : matches :=
  match s with
  | String c r => if in_range a b c then [(digit_val c, r)] else []
  | _ => []
  end.

(** [(?P<Y>\d\d\d\d)] *)
Definition re_Y (s : string) : matches :=
  match s with
  | String a (String b (String c (String d r))) =>
      if (is_digit a && is_digit b && is_digit c && is_digit d)%bool
      then [((1000 * digit_val a + 100 * digit_val b
              + 10 * digit_val c + digit_val d)%N, r)]
      else []
  | _ => []
  end.

(** [(?P<m>1[0-2]|0[1-9]|[1-9])] *)
Definition re_m (s : string) : matches :=
  (two 1 1 0 2 s ++ two 0 0 1 9 s ++ one 1 9 s)%list.

(** [(?P<d>3[0-1]|[1-2]\d|0[1-9]|[1-9]| [1-9])] *)
Definition re_d (s : string) : matches :=
  (two 3 3 0 1 s ++ two 1 2 0 9 s ++ two 0 0 1 9 s ++ one 1 9 s
   ++ match s with
      | String " " r => one 1 9 r
      | _ => []
      end)%list.

(** [(?P<H>2[0-3]|[0-1]\d|\d)] *)
Definition re_H (s : string) : matches :=
  (two 2 2 0 3 s ++ two 0 1 0 9 s ++ one 0 9 s)%list.

(** [(?P<M>[0-5]\d|\d)] *)
Definition re_M (s : string) : matches :=
  (two 0 5 0 9 s ++ one 0 9 s)%list.

(** [(?P<S>6[0-1]|[0-5]\d|\d)] *)
Definition re_S (s : string) : matches :=
  (two 6 6 0 1 s ++ two 0 5 0 9 s ++ one 0 9 s)%list.

(** A literal character of the format. *)
Definition lit (c : ascii) (s : string) : list string :=
  match s with
  | String a r => if Ascii.eqb a c then [r] else []
  | _ => []
  end.

(** [\s+], greedy: the longest run first, then shorter ones. *)
Fixpoint spaces_from (s : string) : list string :=
  match s with
  | String c r => if is_space c then (spaces_from r ++ [r])%list else []
  | EmptyString => []
  end.

(** A text of decimal digits only. *)
Fixpoint all_digits (s : string) : bool :=
  match s with
  | EmptyString => true
  | String c r => is_digit c && all_digits r
  end.

Definition leap (y : N) : bool :=
  ((y mod 4 =? 0) && (negb (y mod 100 =? 0) || (y mod 400 =? 0)))%N.

Definition days_in_month (y m : N) : N :=
  match m with
  | 2 => if leap y then 29 else 28
  | 4 | 6 | 9 | 11 => 30
  | _ => 31
  end%N.

(** The range checks of the [date] and [datetime] constructors. *)
Definition valid (t : datetime) : bool :=
  ((1 <=? year t) && (year t <=? 9999)
   && (1 <=? month t) && (month t <=? 12)
   && (1 <=? day t) && (day t <=? days_in_month (year t) (month t))
   && (hour t <=? 23) && (minute t <=? 59) && (second t <=? 59))%N.

(** All matches of the pattern built from ['%Y:%m:%d %H:%M:%S'], in the
    matcher's order, each with the text it leaves unconsumed. *)
Definition regex_matches (s : string) : list (datetime * string) :=
  '(y, s1) ← re_Y s;
  s2 ← lit ":" s1;
  '(m, s3) ← re_m s2;
  s4 ← lit ":" s3;
  '(d, s5) ← re_d s4;
  s6 ← spaces_from s5;
  '(h, s7) ← re_H s6;
  s8 ← lit ":" s7;
  '(mi, s9) ← re_M s8;
  s10 ← lit ":" s9;
  '(sec, s11) ← re_S s10;
  [(mk_datetime y m d h mi sec, s11)].

(** [datetime.strptime(s, '%Y:%m:%d %H:%M:%S')]: [None] stands for the
    [ValueError] raised when the text does not match, when text remains
    after the match, or when the fields are not a date. *)
Definition strptime (s : string) : option datetime :=
  match regex_matches s with
  | (t, rest) :: _ =>
      if (String.eqb rest "" && valid t)%bool then Some t else None
  | [] => None
  end.

Definition digit_char (d : N) : ascii := ascii_of_N (48 + d).

Definition pad2 (n : N) : string :=
  String (digit_char (n / 10 mod 10)) (String (digit_char (n mod 10)) "").

Definition pad4 (n : N) : string :=
  String (digit_char (n / 1000 mod 10))
    (String (digit_char (n / 100 mod 10)) (pad2 n)).

(** [%Y] as the C library behind [strftime] writes it.  Windows and
    macOS pad the year to four digits ([padded = true]); glibc writes
    the plain decimal number ([padded = false]), so that year 999 comes
    out as [999].  From year 1000 on the two agree. *)
Definition year_text (padded : bool) (y : N) : string :=
  if padded then pad4 y else str_int y.

(** [t.strftime('%Y-%m-%d')] *)
Definition strftime_ymd (padded : bool) (t : datetime) : string :=
  year_text padded (year t) ++ "-" ++ pad2 (month t) ++ "-" ++ pad2 (day t).

(** [t.strftime('%Y:%m:%d %H:%M:%S')] *)
Definition strftime_exif (padded : bool) (t : datetime) : string :=
  year_text padded (year t) ++ ":" ++ pad2 (month t) ++ ":" ++ pad2 (day t)
  ++ " " ++ pad2 (hour t) ++ ":" ++ pad2 (minute t) ++ ":" ++ pad2 (second t).

End DateTime.


(** ** Effects: the shared dictionary, raised exceptions, observable calls *)

Module Photo.
Import PyStr OsPath DateTime.

(** An exception is kept as its message; [except Exception] catches
    every one of them alike. *)
Definition exn := string.

(** A value of [image_hashes]: [{'file_path': ..., 'duplicate_count': ...}]. *)
Record entry := mk_entry { file_path : string; duplicate_count : N }.

(** What [print] writes, by call site. *)
Inductive message :=
| MetadataError (path : string) (e : exn)
| DuplicateDetected (path : string) (original : entry)
| DuplicateCopied (dst : string)
| FileCopied (name date_taken unique_id dst : string)
| ProcessingError (path : string) (e : exn).

(** Calls that leave the interpreter, in the order they are made. *)
Inductive event :=
| CallGetExif (path : string)
| CallVideoFileClip (path : string)
| CallAverageHash (path : string)
| CallUuid4
| CallCopy2 (src dst : string)
| CallMakedirs (dir : string)
| Print (m : message).

(** The value found under ['creation_time'] in the reader's infos. *)
Inductive info_value :=
| InfoDatetime (t : datetime)
| InfoOther (s : string).

(** The collaborators: what each call answers for a given path. *)
Record World := {
  (** [Image.open(p)._getexif()]: raises, or gives [None] or the items
      of the tag dictionary. *)
  getexif : string -> exn + option (list (N * string));
  (** [str(imagehash.average_hash(Image.open(p)))] *)
  average_hash : string -> exn + string;
  (** [VideoFileClip(p).reader.infos], looked up at ['creation_time']. *)
  creation_time : string -> exn + option info_value;
  (** [shutil.copy2(src, dst)]: [Some e] when it raises. *)
  copy2 : string -> string -> option exn;
  (** [os.makedirs(d, exist_ok=True)]: [Some e] when it raises. *)
  makedirs : string -> option exn;
  (** [str(uuid.uuid4())], by the number of draws made before. *)
  uuid4 : nat -> string;
  (** Whether the platform's [strftime] pads [%Y] to four digits. *)
  year_padded : bool
}.

(** The mutable state shared by all calls of [process_file]. *)
Record state := mk_state {
  image_hashes : gmap string entry;
  uuid_draws : nat
}.

(** A computation reads and updates the state, emits events, and ends
    with a value or a raised exception.  State changes and events made
    before a raise stay. *)
Definition M (A : Type) : Type := state -> (exn + A) * state * list event.

Definition ret {A} (a : A) : M A := fun st => (inr a, st, []).

Definition raise {A} (e : exn) : M A := fun st => (inl e, st, []).

Definition bind {A B} (m : M A) (k : A -> M B) : M B :=
  fun st =>
    match m st with
    | (inl e, st1, ev1) => (inl e, st1, ev1)
    | (inr a, st1, ev1) =>
        let '(r, st2, ev2) := k a st1 in (r, st2, (ev1 ++ ev2)%list)
    end.

(** [try: body / except Exception as e: handler(e)] *)
Definition try_except {A} (body : M A) (handler : exn -> M A) : M A :=
  fun st =>
    match body st with
    | (inl e, st1, ev1) =>
        let '(r, st2, ev2) := handler e st1 in (r, st2, (ev1 ++ ev2)%list)
    | (inr a, st1, ev1) => (inr a, st1, ev1)
    end.

Definition emit (e : event) : M unit := fun st => (inr tt, st, [e]).

Definition print (m : message) : M unit := emit (Print m).

Definition lift {A} (r : exn + A) : M A := fun st => (r, st, []).

Definition result_of {A} (x : (exn + A) * state * list event) : exn + A := x.1.1.
Definition state_of {A} (x : (exn + A) * state * list event) : state := x.1.2.
Definition events_of {A} (x : (exn + A) * state * list event) : list event := x.2.

Declare Scope py_scope.
Delimit Scope py_scope with py.
Notation "x <- m ;; k" := (bind m (fun x => k))
  (at level 100, m at next level, right associativity) : py_scope.
Notation "m ;; k" := (bind m (fun _ => k))
  (at level 100, right associativity) : py_scope.
Local Open Scope py_scope.

(** *** Operations on [image_hashes] *)

(** [h in image_hashes] *)
Definition dict_contains (h : string) : M bool :=
  fun st => (inr (bool_decide (is_Some (image_hashes st !! h))), st, []).

(** [image_hashes[h]], a [KeyError] when absent. *)
Definition dict_getitem (h : string) : M entry :=
  fun st =>
    match image_hashes st !! h with
    | Some e => (inr e, st, [])
    | None => (inl "KeyError", st, [])
    end.

(** [image_hashes[h] = e] *)
Definition dict_setitem (h : string) (e : entry) : M unit :=
  fun st => (inr tt, mk_state (<[h := e]> (image_hashes st)) (uuid_draws st), []).

(** [image_hashes[h]['duplicate_count'] += 1]: the inner dictionary is
    looked up once, its count read, one added, and the sum stored. *)
Definition incr_duplicate_count (h : string) : M unit :=
  e <- dict_getitem h ;;
  dict_setitem h (mk_entry (file_path e) (duplicate_count e + 1)).

(** *** Calls to the collaborators *)

Definition call_getexif (w : World) (p : string) : M (option (list (N * string))) :=
  emit (CallGetExif p) ;; lift (getexif w p).

Definition call_average_hash (w : World) (p : string) : M string :=
  emit (CallAverageHash p) ;; lift (average_hash w p).

Definition call_creation_time (w : World) (p : string) : M (option info_value) :=
  emit (CallVideoFileClip p) ;; lift (creation_time w p).

Definition call_copy2 (w : World) (src dst : string) : M unit :=
  emit (CallCopy2 src dst) ;;
  match copy2 w src dst with
  | Some e => raise e
  | None => ret tt
  end.

Definition call_makedirs (w : World) (d : string) : M unit :=
  emit (CallMakedirs d) ;;
  match makedirs w d with
  | Some e => raise e
  | None => ret tt
  end.

Definition call_uuid4 (w : World) : M string :=
  emit CallUuid4 ;;
  fun st => (inr (uuid4 w (uuid_draws st)),
             mk_state (image_hashes st) (S (uuid_draws st)), []).

(** *** [get_image_metadata] *)

(** A key of the dictionary built from the tags: the tag's name when
    [TAGS] knows it, the numeric tag otherwise. *)
Inductive tag_key := TagName (s : string) | TagId (n : N).

Definition tag_key_eqb (a b : tag_key) : bool :=
  match a, b with
  | TagName s, TagName t => String.eqb s t
  | TagId n, TagId m => N.eqb n m
  | _, _ => false
  end.

(** The entries of [PIL.ExifTags.TAGS] around the one the script reads. *)
Definition TAGS : list (N * string) :=
  [ (271, "Make"); (272, "Model"); (274, "Orientation"); (306, "DateTime");
    (36867, "DateTimeOriginal"); (36868, "DateTimeDigitized") ]%N.

(** [TAGS.get(tag, tag)] *)
Definition TAGS_get (tag : N) : tag_key :=
  match List.find (fun kv => N.eqb (fst kv) tag) TAGS with
  | Some kv => TagName (snd kv)
  | None => TagId tag
  end.

(** [{TAGS.get(tag, tag): value for tag, value in exif_data.items()}],
    as the list of assignments in order; a later one overrides. *)
Definition exif_dict (exif_data : list (N * string)) : list (tag_key * string) :=
  List.map (fun kv => (TAGS_get (fst kv), snd kv)) exif_data.

(** [exif.get(key, default)] *)
Definition exif_get (exif : list (tag_key * string)) (key : tag_key)
    (default : string) : string :=
  match List.find (fun kv => tag_key_eqb (fst kv) key) (List.rev exif) with
  | Some kv => snd kv
  | None => default
  end.

(** [if exif_data:] holds for a dictionary that is neither [None] nor empty. *)
Definition truthy (exif_data : option (list (N * string))) : bool :=
  match exif_data with
  | Some (_ :: _) => true
  | _ => false
  end.

Definition get_image_metadata (w : World) (path : string) : M string :=
  try_except
    (exif_data <- call_getexif w path ;;
     if truthy exif_data then
       let exif := exif_dict (default [] exif_data) in
       let date_taken := exif_get exif (TagName "DateTimeOriginal") "Unknown" in
       ret date_taken
     else ret "Unknown")
    (fun e => print (MetadataError path e) ;; ret "Unknown").

(** *** [get_video_metadata] *)

Definition get_video_metadata (w : World) (path : string) : M string :=
  try_except
    (found <- call_creation_time w path ;;
     match found with
     | Some (InfoDatetime t) => ret (strftime_exif (year_padded w) t)
     | Some (InfoOther _) | None => ret "Unknown"
     end)
    (fun e => print (MetadataError path e) ;; ret "Unknown").

(** *** [process_file] *)

(** Lines 52-55 and 72-75: the date part of the new name.  A capture
    date other than ['Unknown'] goes through [strptime], whose
    [ValueError] is not handled here. *)
Definition format_date_taken (padded : bool) (date_taken : string)
    : exn + string :=
  if negb (String.eqb date_taken "Unknown") then
    match strptime date_taken with
    | Some t => inr (strftime_ymd padded t)
    | None => inl "ValueError"
    end
  else inr "unknown".

(** Line 57: the name of a detected duplicate. *)
Definition duplicate_file_name (date_taken_formatted img_hash : string)
    (duplicate_count : N) (ext : string) : string :=
  date_taken_formatted ++ "-" ++ img_hash ++ "_duplicate_"
  ++ str_int duplicate_count ++ ext.

(** Lines 78 and 80: the name of a first-seen image or of a video. *)
Definition plain_file_name (date_taken_formatted identity ext : string) : string :=
  date_taken_formatted ++ "-" ++ identity ++ ext.

(** Lines 71-86, shared by first-seen images and videos.  [img_hash] is
    bound only when the image branch ran. *)
Definition copy_under_new_name (w : World) (path ext : string)
    (image_extensions video_extensions : list string)
    (date_taken output_subdir : string) (img_hash : option string) : M unit :=
  unique_id <- call_uuid4 w ;;
  date_taken_formatted <- lift (format_date_taken (year_padded w) date_taken) ;;
  new_file_name <-
    (if in_tuple ext image_extensions then
       match img_hash with
       | Some h => ret (plain_file_name date_taken_formatted h ext)
       | None => raise "UnboundLocalError"
       end
     else if in_tuple ext video_extensions then
       ret (plain_file_name date_taken_formatted unique_id ext)
     else raise "UnboundLocalError") ;;
  let new_file_path := join output_subdir new_file_name in
  call_copy2 w path new_file_path ;;
  print (FileCopied (basename path) date_taken unique_id new_file_path).

(** Lines 49-61: the branch taken when the hash is already a key. *)
Definition copy_duplicate (w : World) (path ext date_taken output_subdir
    img_hash : string) : M unit :=
  original <- dict_getitem img_hash ;;
  print (DuplicateDetected path original) ;;
  e <- dict_getitem img_hash ;;
  let duplicate_count := duplicate_count e in
  incr_duplicate_count img_hash ;;
  date_taken_formatted <- lift (format_date_taken (year_padded w) date_taken) ;;
  let new_file_name :=
    duplicate_file_name date_taken_formatted img_hash duplicate_count ext in
  let duplicate_file_path := join output_subdir new_file_name in
  call_copy2 w path duplicate_file_path ;;
  print (DuplicateCopied duplicate_file_path).

Definition process_file (w : World) (path ext : string)
    (image_extensions video_extensions : list string)
    (images_output_dir videos_output_dir : string) : M unit :=
  try_except
    (if in_tuple ext image_extensions then
       date_taken <- get_image_metadata w path ;;
       let output_subdir := images_output_dir in
       img_hash <- call_average_hash w path ;;
       present <- dict_contains img_hash ;;
       if (present : bool) then
         copy_duplicate w path ext date_taken output_subdir img_hash
       else
         dict_setitem img_hash (mk_entry path 1) ;;
         copy_under_new_name w path ext image_extensions video_extensions
           date_taken output_subdir (Some img_hash)
     else if in_tuple ext video_extensions then
       date_taken <- get_video_metadata w path ;;
       let output_subdir := videos_output_dir in
       copy_under_new_name w path ext image_extensions video_extensions
         date_taken output_subdir None
     else ret tt)
    (fun e => print (ProcessingError path e)).

(** *** [process_files] *)

Definition image_extensions : list string :=
  [".jpg"; ".jpeg"; ".png"; ".gif"; ".bmp"; ".tiff"].

Definition video_extensions : list string :=
  [".mp4"; ".avi"; ".mov"; ".mkv"].

(** What [os.walk] yields: a directory and the names of its files. *)
Definition walk := list (string * list string).

(** Lines 103-107: the list [file_paths]. *)
Definition file_paths (tree : walk) : list (string * string) :=
  flat_map
    (fun '(subdir, files) =>
       List.map (fun file => (join subdir file, lower (snd (splitext file))))
         files)
    tree.

(** One task of the pool, as submitted on line 110. *)
Definition task (w : World) (output_dir : string) (it : string * string) : M unit :=
  process_file w (fst it) (snd it) image_extensions video_extensions
    (join output_dir "images") (join output_dir "videos").

(** The tasks run one after the other, in the order of the list. *)
Fixpoint run_tasks (w : World) (output_dir : string)
    (items : list (string * string)) : M unit :=
  match items with
  | [] => ret tt
  | it :: rest => task w output_dir it ;; run_tasks w output_dir rest
  end.

(** [process_files] with the pool's tasks taken one at a time, in the
    order of submission.  The pool of the script has two workers, so
    this is one of its schedules; module [Interleaving] below takes the
    dictionary accesses of two tasks apart. *)
Definition process_files (w : World) (tree : walk) (output_dir : string) : M unit :=
  call_makedirs w (join output_dir "images") ;;
  call_makedirs w (join output_dir "videos") ;;
  run_tasks w output_dir (file_paths tree).

Definition initial_state : state := mk_state ∅ 0.

(** *** Reading a run *)

(** The media kind an extension is routed as by the tests of
    [process_file]. *)
Inductive media_kind := Image | Video | Ignored.

Definition kind_of (ext : string) (image_exts video_exts : list string) : media_kind :=
  if in_tuple ext image_exts then Image
  else if in_tuple ext video_exts then Video
  else Ignored.

(** The kind a file name is routed as by [process_files]. *)
Definition kind_of_file (file : string) : media_kind :=
  kind_of (lower (snd (splitext file))) image_extensions video_extensions.

(** The capture date [get_image_metadata] returns for a path, and the
    events it emits; neither depends on the state it is run in. *)
Definition image_date_taken (w : World) (path : string) : string :=
  match result_of (get_image_metadata w path initial_state) with
  | inr v => v
  | inl _ => "Unknown"
  end.

Definition video_date_taken (w : World) (path : string) : string :=
  match result_of (get_video_metadata w path initial_state) with
  | inr v => v
  | inl _ => "Unknown"
  end.


(** The hash of an image, when it can be computed. *)
Definition fingerprint (w : World) (path : string) : option string :=
  match average_hash w path with
  | inr h => Some h
  | inl _ => None
  end.

(** The date part of the name that [process_file] gives to an image
    ([unknown] also stands in when the capture date does not parse and
    no name is formed). *)
Definition image_date_part (w : World) (path : string) : string :=
  match format_date_taken (year_padded w) (image_date_taken w path) with
  | inr d => d
  | inl _ => "unknown"
  end.

(** An image with hash [h] whose capture date is ['Unknown'] or parses. *)
(** An item that [process_file] takes for an image and whose hash is
    [h], whatever its capture date. *)
Definition hashed_image (w : World) (h : string) (it : string * string) : Prop :=
  kind_of (snd it) image_extensions video_extensions = Image
  /\ average_hash w (fst it) = inr h.

Definition image_with_hash (w : World) (h : string) (it : string * string) : Prop :=
  kind_of (snd it) image_extensions video_extensions = Image
  /\ average_hash w (fst it) = inr h
  /\ format_date_taken (year_padded w) (image_date_taken w (fst it))
     = inr (image_date_part w (fst it)).

Definition is_copy (e : event) : option (string * string) :=
  match e with CallCopy2 src dst => Some (src, dst) | _ => None end.

(** The [shutil.copy2] calls of a run: source and destination. *)
Definition copies (evs : list event) : list (string * string) :=
  omap is_copy evs.

(** What lines 71-86 emit after the identifier is drawn. *)
Definition tail_events (w : World) (path date_taken unique_id : string)
    (formatted : exn + string) (name_of : string -> string)
    (output_subdir : string) : list event :=
  match formatted with
  | inl err => [Print (ProcessingError path err)]
  | inr d =>
      let dst := join output_subdir (name_of d) in
      CallCopy2 path dst ::
      match copy2 w path dst with
      | Some err => [Print (ProcessingError path err)]
      | None => [Print (FileCopied (basename path) date_taken unique_id dst)]
      end
  end.

(** What lines 52-60 emit. *)
Definition duplicate_events (w : World) (path : string)
    (formatted : exn + string) (name_of : string -> string)
    (output_subdir : string) : list event :=
  match formatted with
  | inl err => [Print (ProcessingError path err)]
  | inr d =>
      let dst := join output_subdir (name_of d) in
      CallCopy2 path dst ::
      match copy2 w path dst with
      | Some err => [Print (ProcessingError path err)]
      | None => [Print (DuplicateCopied dst)]
      end
  end.

(** The event that comes just before the first [shutil.copy2] call of
    a trace: [None] when the trace has no such call, [Some None] when
    the call opens the trace. *)
Fixpoint event_before_copy (prev : option event) (evs : list event)
    : option (option event) :=
  match evs with
  | [] => None
  | CallCopy2 _ _ :: _ => Some prev
  | e :: rest => event_before_copy (Some e) rest
  end.

(** Between the draw of line 71 (for a duplicate: the message of line
    49) and the copy, nothing is called and nothing is printed. *)
Definition named_without_calls (path : string) (evs : list event) : Prop :=
  match event_before_copy None evs with
  | None => copies evs = []
  | Some (Some CallUuid4) => True
  | Some (Some (Print (DuplicateDetected p _))) => p = path
  | Some _ => False
  end.

Definition is_hash_call (e : event) : bool :=
  match e with CallAverageHash _ => true | _ => false end.

Definition is_error (e : event) : bool :=
  match e with Print (ProcessingError _ _) => true | _ => false end.

Definition is_print (e : event) : bool :=
  match e with Print _ => true | _ => false end.

End Photo.

(** ** Two workers on one dictionary

    [process_files] submits the tasks to a pool of two threads that
    share [image_hashes].  The script takes no lock, so between two
    statements of one task the other task may run.  Here the statements
    of [process_file] that touch the dictionary (lines 48-51 and 63) are
    the steps; everything else a task does is local to it. *)

Module Interleaving.
Import Photo.

(** What a task has learnt about its image once it is through. *)
Inductive outcome :=
| FirstSeen
| Duplicate (ordinal : N) (original : string)
| KeyError.

(** Where a task stands. *)
Inductive pc :=
| AtTest                          (* line 48: [if img_hash in image_hashes] *)
| AtPrint                         (* line 49: reads [image_hashes[img_hash]] *)
| AtReadCount (original : string) (* line 50: [duplicate_count = ...] *)
| AtIncrement (original : string) (duplicate_count : N)
                                  (* line 51: [... += 1] *)
| AtInsert                        (* line 63: [image_hashes[img_hash] = ...] *)
| Finished (o : outcome).

Record worker := mk_worker { w_path : string; w_hash : string; w_pc : pc }.

Definition start (h path : string) : worker := mk_worker path h AtTest.

(** One statement of one task. *)
Definition step1 (reg : gmap string entry) (t : worker)
    : gmap string entry * worker :=
  let at_pc p := mk_worker (w_path t) (w_hash t) p in
  match w_pc t with
  | AtTest =>
      if bool_decide (is_Some (reg !! w_hash t))
      then (reg, at_pc AtPrint) else (reg, at_pc AtInsert)
  | AtPrint =>
      match reg !! w_hash t with
      | Some e => (reg, at_pc (AtReadCount (file_path e)))
      | None => (reg, at_pc (Finished KeyError))
      end
  | AtReadCount original =>
      match reg !! w_hash t with
      | Some e => (reg, at_pc (AtIncrement original (duplicate_count e)))
      | None => (reg, at_pc (Finished KeyError))
      end
  | AtIncrement original n =>
      match reg !! w_hash t with
      | Some e =>
          (<[w_hash t := mk_entry (file_path e) (duplicate_count e + 1)]> reg,
           at_pc (Finished (Duplicate n original)))
      | None => (reg, at_pc (Finished KeyError))
      end
  | AtInsert =>
      (<[w_hash t := mk_entry (w_path t) 1]> reg, at_pc (Finished FirstSeen))
  | Finished o => (reg, t)
  end.

Definition config : Type := gmap string entry * list worker.

(** The scheduler lets task [i] run one statement. *)
Definition step (i : nat) (c : config) : config :=
  match c.2 !! i with
  | Some t => let '(reg', t') := step1 c.1 t in (reg', <[i := t']> c.2)
  | None => c
  end.

(** A schedule names the task to run at each turn. *)
Definition run (schedule : list nat) (c : config) : config :=
  fold_left (fun c i => step i c) schedule c.

Definition outcome_of (t : worker) : option outcome :=
  match w_pc t with Finished o => Some o | _ => None end.

Definition outcomes (c : config) : list (option outcome) :=
  List.map outcome_of c.2.

Definition is_first_seen (o : option outcome) : bool :=
  match o with Some FirstSeen => true | _ => false end.

Definition ordinal_of (o : option outcome) : option N :=
  match o with Some (Duplicate n _) => Some n | _ => None end.

(** The ordinals handed out, by task. *)
Definition ordinals (c : config) : list N := omap ordinal_of (outcomes c).

(** No task runs more than four statements on the dictionary. *)
Definition statements : nat := 4.

(** The schedule without overlap: task 0 to its end, then task 1, ... *)
Definition serial (n : nat) : list nat :=
  flat_map (fun i => repeat i statements) (seq 0 n).

(** One task run to its end with nothing in between. *)
Definition complete (reg : gmap string entry) (t : worker)
    : gmap string entry * worker :=
  Nat.iter statements (fun c => step1 c.1 c.2) (reg, t).

(** The tasks of a list, each run to its end in turn. *)
Fixpoint complete_all (reg : gmap string entry) (ts : list worker)
    : gmap string entry * list worker :=
  match ts with
  | [] => (reg, [])
  | t :: rest =>
      let '(reg1, t1) := complete reg t in
      let '(reg2, rest2) := complete_all reg1 rest in
      (reg2, t1 :: rest2)
  end.

End Interleaving.

(** ** A small tree of files to run the script on *)

Module Demo.
Import Photo DateTime.

Definition exif_a : list (N * string) :=
  [ (271, "Canon"); (36867, "2023:05:01 10:00:00") ]%N.

Definition exif_b : list (N * string) :=
  [ (36867, "2023:05:01 11:30:00"); (306, "2024:01:01 00:00:00") ]%N.

Definition exif_d : list (N * string) :=
  [ (36867, "2022:12:24 18:00:00") ]%N.

Definition world : World := {|
  getexif p :=
    if String.eqb p "in/a.jpg" then inr (Some exif_a)
    else if String.eqb p "in/sub/b.JPG" then inr (Some exif_b)
    else if String.eqb p "in/sub/d.jpeg" then inr (Some exif_d)
    else if String.eqb p "in/c.png" then inr None
    else if String.eqb p "in/e.gif" then inr (Some [ (271, "Canon") ]%N)
    else if String.eqb p "in/z.jpg"
    then inr (Some [ (36867, "0000:00:00 00:00:00") ]%N)
    else if (String.eqb p "shots/x.jpg" || String.eqb p "shots/y.jpg")%bool
    then inr (Some exif_a)
    else inl "cannot identify image file";
  average_hash p :=
    if (String.eqb p "in/a.jpg" || String.eqb p "in/sub/b.JPG"
        || String.eqb p "in/sub/d.jpeg")%bool
    then inr "ffd8c0c0e0f0f8fc"
    else if String.eqb p "in/c.png" then inr "0f0f0f0f00000000"
    else if String.eqb p "in/e.gif" then inr "00000000ffffffff"
    else if String.eqb p "in/z.jpg" then inr "aaaaaaaa55555555"
    else if (String.eqb p "shots/x.jpg" || String.eqb p "shots/y.jpg")%bool
    then inr "8f0f1f3f7fffff00"
    else inl "cannot identify image file";
  creation_time p :=
    if String.eqb p "in/v.mp4" then inr None
    else if String.eqb p "in/sub/w.MOV"
    then inr (Some (InfoDatetime (mk_datetime 2021 7 4 9 30 0)))
    else inl "MoviePy error: failed to read the duration of file";
  copy2 _ _ := None;
  makedirs _ := None;
  uuid4 n := "6f1c2a9e-0000-4000-8000-" ++ PyStr.str_int (N.of_nat n);
  year_padded := false
|}.

Definition tree : walk :=
  [ ("in", ["a.jpg"; "c.png"; "notes.txt"; "v.mp4"; "broken.jpg"]);
    ("in/sub", ["b.JPG"; "d.jpeg"; "w.MOV"]) ].

(** Two byte-identical JPEGs taken on 2023-05-01 at 10:00:00. *)
Definition twins : walk := [ ("shots", ["x.jpg"; "y.jpg"]) ].

End Demo.

(** ** A scan of an old print, dated with the year 999, on a machine
    whose C library is glibc *)

Module Attic.
Import Photo.

Definition world : World := {|
  getexif _ := inr (Some [ (36867, "0999:01:01 00:00:00") ]%N);
  average_hash _ := inr "1e1e1e1e1e1e1e1e";
  creation_time _ := inl "failed to read the duration of file";
  copy2 _ _ := None;
  makedirs _ := None;
  uuid4 n := "c4a1b2d3-0f9e-4d8c-b7a6-" ++ PyStr.str_int (N.of_nat n);
  year_padded := false
|}.

Definition tree : walk := [ ("attic", ["old.JPG"]) ].

End Attic.

(** ** Three frames of one burst, the second with a zeroed capture date *)

Module Burst.
Import Photo.

Definition world : World := {|
  getexif p :=
    if String.eqb p "burst/f2.jpg"
    then inr (Some [ (36867, "0000:00:00 00:00:00") ]%N)
    else inr (Some [ (36867, "2024:03:09 08:15:00") ]%N);
  average_hash _ := inr "3c3c7e7effff7e3c";
  creation_time _ := inl "failed to read the duration of file";
  copy2 _ _ := None;
  makedirs _ := None;
  uuid4 n := "9d2f4b6a-1c3e-4a5b-8c7d-" ++ PyStr.str_int (N.of_nat n);
  year_padded := true
|}.

Definition tree : walk := [ ("burst", ["f1.jpg"; "f2.jpg"; "f3.jpg"]) ].

End Burst.

(** ** A second set of files, with the awkward cases *)

Module Album.
Import Photo DateTime.

Definition world : World := {|
  getexif p :=
    if String.eqb p "cam/p1.jpg"
    then inr (Some [ (36867, "0000:00:00 00:00:00") ]%N)
    else if String.eqb p "cam/p2.jpg"
    then inr (Some [ (306, "2024:01:01 00:00:00");
                     (36867, "2024:02:29 23:59:59");
                     (271, "Nikon") ]%N)
    else if String.eqb p "cam/p3.png" then inr (Some [])
    else inl "cannot identify image file";
  average_hash p :=
    if (String.eqb p "cam/p1.jpg" || String.eqb p "cam/p2.jpg")%bool
    then inr "c3c3c3c3c3c3c3c3"
    else if String.eqb p "cam/p3.png" then inr "0123456789abcdef"
    else inl "cannot identify image file";
  creation_time p :=
    if String.eqb p "cam/m1.mp4"
    then inr (Some (InfoDatetime (mk_datetime 2021 7 4 9 30 0)))
    else if String.eqb p "cam/m2.avi" then inr (Some (InfoOther "2021-07-04"))
    else inl "failed to read the duration of file";
  copy2 src _ :=
    if String.eqb src "cam/p3.png" then Some "PermissionError" else None;
  makedirs _ := None;
  uuid4 n := "0b8e6f52-7c1d-4a3b-9e2f-" ++ PyStr.str_int (N.of_nat n);
  year_padded := true
|}.

End Album.

(** ** Scanned pictures: files that PIL can decode but whose EXIF block
    cannot be read *)

Module Scans.
Import Photo.

Definition world : World := {|
  getexif _ := inl "not a TIFF file";
  average_hash p :=
    if String.eqb p "scan/s2.bmp" then inr "ff00ff00ff00ff00"
    else inr "f0f0f0f0f0f0f0f0";
  creation_time _ := inl "failed to read the duration of file";
  copy2 _ _ := None;
  makedirs d := if String.eqb d "ro/images" then Some "PermissionError" else None;
  uuid4 n := "9a7d3c10-55e2-4f0b-8d6a-" ++ PyStr.str_int (N.of_nat n);
  year_padded := false
|}.

End Scans.

(** ** Two clips with the same name in different directories *)

Module Clips.
Import Photo DateTime.

Definition world : World := {|
  getexif _ := inl "cannot identify image file";
  average_hash _ := inl "cannot identify image file";
  creation_time _ := inr (Some (InfoDatetime (mk_datetime 2020 2 29 12 0 0)));
  copy2 _ _ := None;
  makedirs _ := None;
  uuid4 n := "5d2f0e7a-91c4-4b6e-a3f8-00000000" ++ pad4 (N.of_nat n);
  year_padded := true
|}.

End Clips.

(** ** Notions used to read whole runs *)

Module Reading.
Import PyStr OsPath DateTime Photo.

(** An item that [process_file] hashes to [h]: its extension is an
    image extension and the hash call answers [h]. *)
Definition hashes_to (w : World) (h : string) (it : string * string) : bool :=
  match kind_of (snd it) image_extensions video_extensions,
        average_hash w (fst it) with
  | Image, inr h' => String.eqb h' h
  | _, _ => false
  end.

(** An item whose extension is in neither tuple. *)
Definition is_ignored (it : string * string) : bool :=
  match kind_of (snd it) image_extensions video_extensions with
  | Ignored => true
  | _ => false
  end.

(** [reg'] still has every key of [reg], under the same path and with a
    count that is not smaller. *)
Definition entries_kept (reg reg' : gmap string entry) : Prop :=
  forall h e,
    reg !! h = Some e ->
    exists e', reg' !! h = Some e'
               /\ file_path e' = file_path e
               /\ (duplicate_count e <= duplicate_count e')%N.

(** A file name without its leading dots. *)
Fixpoint skip_leading_dots (s : string) : string :=
  match s with
  | String c r => if Ascii.eqb c extsep then skip_leading_dots r else s
  | EmptyString => EmptyString
  end.

(** An extension as [splitext] gives it: nothing, or one dot followed by
    text without a dot. *)
Definition extension_shape (ext : string) : Prop :=
  ext = "" \/ exists r, ext = String extsep r /\ has_dot r = false.

(** A date part as [format_date_taken] produces it. *)
Definition date_form (padded : bool) (d : string) : Prop :=
  d = "unknown" \/ exists t, d = strftime_ymd padded t.

(** The statements on the dictionary a task may still have to run. *)
Definition statements_left (p : Interleaving.pc) : nat :=
  match p with
  | Interleaving.AtTest => 4
  | Interleaving.AtPrint => 3
  | Interleaving.AtReadCount _ => 2
  | Interleaving.AtIncrement _ _ => 1
  | Interleaving.AtInsert => 1
  | Interleaving.Finished _ => 0
  end.

(** A task on the duplicate branch (lines 49-51) has its hash among the
    keys, and no task has met a [KeyError]. *)
Definition key_present (reg : gmap string entry) (t : Interleaving.worker) : Prop :=
  match Interleaving.w_pc t with
  | Interleaving.AtPrint | Interleaving.AtReadCount _
  | Interleaving.AtIncrement _ _ =>
      is_Some (reg !! Interleaving.w_hash t)
  | Interleaving.Finished Interleaving.KeyError => False
  | _ => True
  end.

(** Some task with hash [h] has ended as first-seen. *)
Definition first_seen_exists (h : string) (ws : list Interleaving.worker) : Prop :=
  exists t, t ∈ ws /\ Interleaving.w_hash t = h
            /\ Interleaving.w_pc t = Interleaving.Finished Interleaving.FirstSeen.

(** A task that has not yet written: it is at the test of line 48 or
    about to insert on line 63. *)
Definition before_insert (p : Interleaving.pc) : Prop :=
  p = Interleaving.AtTest \/ p = Interleaving.AtInsert.

(** As long as [h] is no key, the tasks with hash [h] have not passed
    line 63; once it is a key, one of them has inserted it. *)
Definition registered_by_a_task (h : string) (c : Interleaving.config) : Prop :=
  match c.1 !! h with
  | None =>
      Forall (fun t => Interleaving.w_hash t = h ->
                       before_insert (Interleaving.w_pc t)) c.2
  | Some _ => first_seen_exists h c.2
  end.

(** The destination named by a message of success. *)
Definition is_success (e : event) : option string :=
  match e with
  | Print (FileCopied _ _ _ dst) | Print (DuplicateCopied dst) => Some dst
  | _ => None
  end.

(** A trace that ends with exactly one report: a message of success for
    the one copy asked for, which did not raise, and no error; or one
    error and no message of success. *)
Definition reported (w : World) (path : string) (evs : list event) : Prop :=
  (exists dst e,
      last evs = Some e /\ is_success e = Some dst
      /\ omap is_success evs = [dst]
      /\ copies evs = [(path, dst)] /\ copy2 w path dst = None
      /\ List.filter is_error evs = [])
  \/ (exists err,
        last evs = Some (Print (ProcessingError path err))
        /\ omap is_success evs = []
        /\ List.filter is_error evs = [Print (ProcessingError path err)]).

(** An item whose extension is a video extension. *)
Definition is_video (it : string * string) : Prop :=
  kind_of (snd it) image_extensions video_extensions = Video.

(** The destination of a video copied with the identifier of a draw
    from [n] on and before [m]. *)
Definition video_destination (w : World) (output_dir : string) (n m : nat)
    (dst : string) : Prop :=
  exists k d ext,
    (n <= k < m)%nat /\ date_form (year_padded w) d
    /\ dst = join (join output_dir "videos") (plain_file_name d (uuid4 w k) ext).

(** Every count is at least 1. *)
Definition counts_positive (reg : gmap string entry) : Prop :=
  forall h e, reg !! h = Some e -> (1 <= duplicate_count e)%N.

End Reading.

(** * Properties *)

Import PyStr OsPath DateTime Photo.
Local Open Scope py_scope.

(** ** The metadata extractors *)

Lemma get_image_metadata_run w path st :
  get_image_metadata w path st
  = (inr (image_date_taken w path), st,
     events_of (get_image_metadata w path initial_state)).
Proof.
  unfold image_date_taken, get_image_metadata, try_except, bind, call_getexif,
    bind, emit, lift, print, emit, ret, result_of, events_of.
  simpl. destruct (getexif w path) as [e|d]; simpl; [reflexivity|].
  destruct (truthy d); reflexivity.
Qed.

Lemma get_video_metadata_run w path st :
  get_video_metadata w path st
  = (inr (video_date_taken w path), st,
     events_of (get_video_metadata w path initial_state)).
Proof.
  unfold video_date_taken, get_video_metadata, try_except, bind,
    call_creation_time, bind, emit, lift, print, emit, ret, result_of, events_of.
  simpl. destruct (creation_time w path) as [e|[[t|s]|]]; reflexivity.
Qed.

Lemma image_metadata_no_hash w path :
  List.filter is_hash_call (events_of (get_image_metadata w path initial_state)) = []
  /\ copies (events_of (get_image_metadata w path initial_state)) = [].
Proof.
  unfold get_image_metadata, try_except, bind, call_getexif,
    bind, emit, lift, print, emit, ret, events_of.
  simpl. destruct (getexif w path) as [e|d]; simpl; [split; reflexivity|].
  destruct (truthy d); split; reflexivity.
Qed.

Lemma video_metadata_no_hash w path :
  List.filter is_hash_call (events_of (get_video_metadata w path initial_state)) = []
  /\ copies (events_of (get_video_metadata w path initial_state)) = [].
Proof.
  unfold get_video_metadata, try_except, bind, call_creation_time,
    bind, emit, lift, print, emit, ret, events_of.
  simpl. destruct (creation_time w path) as [e|[[t|s]|]]; split; reflexivity.
Qed.

(** The only tag that [TAGS] names ['DateTimeOriginal'] is 36867. *)
Lemma TAGS_get_original tag :
  tag_key_eqb (TAGS_get tag) (TagName "DateTimeOriginal") = N.eqb tag 36867.
Proof.
  unfold TAGS_get, TAGS. cbn [List.find fst snd].
  destruct (N.eqb_spec 271 tag) as [<-|?]; [reflexivity|].
  destruct (N.eqb_spec 272 tag) as [<-|?]; [reflexivity|].
  destruct (N.eqb_spec 274 tag) as [<-|?]; [reflexivity|].
  destruct (N.eqb_spec 306 tag) as [<-|?]; [reflexivity|].
  destruct (N.eqb_spec 36867 tag) as [<-|?]; [reflexivity|].
  destruct (N.eqb_spec 36868 tag) as [<-|?]; [reflexivity|].
  cbn [tag_key_eqb]. symmetry. apply N.eqb_neq. congruence.
Qed.

(** ** [process_file], branch by branch *)

Ltac run_monad :=
  unfold copy_duplicate, copy_under_new_name, incr_duplicate_count,
    call_average_hash, call_copy2, call_uuid4,
    dict_contains, dict_getitem, dict_setitem, try_except, bind, emit, lift,
    print, emit, ret, raise; cbn [image_hashes uuid_draws fst snd].

Lemma process_file_ignored w path ext ie ve d1 d2 st :
  kind_of ext ie ve = Ignored ->
  process_file w path ext ie ve d1 d2 st = (inr tt, st, []).
Proof.
  unfold kind_of, process_file, try_except. intros H.
  destruct (in_tuple ext ie); [discriminate|].
  destruct (in_tuple ext ve); [discriminate|]. reflexivity.
Qed.

Lemma process_file_hash_raises w path ext ie ve d1 d2 st err :
  in_tuple ext ie = true ->
  average_hash w path = inl err ->
  process_file w path ext ie ve d1 d2 st
  = (inr tt, st,
     events_of (get_image_metadata w path initial_state)
     ++ [CallAverageHash path; Print (ProcessingError path err)])%list.
Proof.
  intros Hi Hh. unfold process_file. rewrite Hi.
  unfold try_except at 1. unfold bind at 1. rewrite get_image_metadata_run.
  run_monad. rewrite Hh. cbn. rewrite <- ?List.app_assoc. reflexivity.
Qed.

Lemma process_file_duplicate w path ext ie ve d1 d2 st h e :
  in_tuple ext ie = true ->
  average_hash w path = inr h ->
  image_hashes st !! h = Some e ->
  process_file w path ext ie ve d1 d2 st
  = (inr tt,
     mk_state (<[h := mk_entry (file_path e) (duplicate_count e + 1)]>
                 (image_hashes st)) (uuid_draws st),
     events_of (get_image_metadata w path initial_state)
     ++ [CallAverageHash path; Print (DuplicateDetected path e)]
     ++ duplicate_events w path (format_date_taken (year_padded w) (image_date_taken w path))
          (fun d => duplicate_file_name d h (duplicate_count e) ext) d1)%list.
Proof.
  intros Hi Hh He. unfold process_file. rewrite Hi.
  unfold try_except at 1. unfold bind at 1. rewrite get_image_metadata_run.
  run_monad. rewrite Hh. cbn. repeat (rewrite He; cbn).
  unfold duplicate_events.
  destruct (format_date_taken (year_padded w) (image_date_taken w path)) as [err|d]; cbn.
  - rewrite <- ?List.app_assoc. reflexivity.
  - destruct (copy2 w path _); cbn; rewrite <- ?List.app_assoc; reflexivity.
Qed.

Lemma process_file_first_seen w path ext ie ve d1 d2 st h :
  in_tuple ext ie = true ->
  average_hash w path = inr h ->
  image_hashes st !! h = None ->
  process_file w path ext ie ve d1 d2 st
  = (inr tt,
     mk_state (<[h := mk_entry path 1]> (image_hashes st)) (S (uuid_draws st)),
     events_of (get_image_metadata w path initial_state)
     ++ [CallAverageHash path; CallUuid4]
     ++ tail_events w path (image_date_taken w path) (uuid4 w (uuid_draws st))
          (format_date_taken (year_padded w) (image_date_taken w path))
          (fun d => plain_file_name d h ext) d1)%list.
Proof.
  intros Hi Hh He. unfold process_file. rewrite Hi.
  unfold try_except at 1. unfold bind at 1. rewrite get_image_metadata_run.
  run_monad. rewrite Hh. cbn. rewrite He. cbn. rewrite Hi.
  unfold tail_events.
  destruct (format_date_taken (year_padded w) (image_date_taken w path)) as [err|d]; cbn.
  - rewrite <- ?List.app_assoc. reflexivity.
  - destruct (copy2 w path _); cbn; rewrite <- ?List.app_assoc; reflexivity.
Qed.

Lemma process_file_video w path ext ie ve d1 d2 st :
  kind_of ext ie ve = Video ->
  process_file w path ext ie ve d1 d2 st
  = (inr tt,
     mk_state (image_hashes st) (S (uuid_draws st)),
     events_of (get_video_metadata w path initial_state)
     ++ [CallUuid4]
     ++ tail_events w path (video_date_taken w path) (uuid4 w (uuid_draws st))
          (format_date_taken (year_padded w) (video_date_taken w path))
          (fun d => plain_file_name d (uuid4 w (uuid_draws st)) ext) d2)%list.
Proof.
  unfold kind_of. intros Hk.
  destruct (in_tuple ext ie) eqn:Hi; [discriminate|].
  destruct (in_tuple ext ve) eqn:Hv; [|discriminate].
  unfold process_file. rewrite Hi, Hv.
  unfold try_except at 1. unfold bind at 1. rewrite get_video_metadata_run.
  run_monad. rewrite Hi, Hv.
  unfold tail_events.
  destruct (format_date_taken (year_padded w) (video_date_taken w path)) as [err|d]; cbn.
  - rewrite <- ?List.app_assoc. reflexivity.
  - destruct (copy2 w path _); cbn; rewrite <- ?List.app_assoc; reflexivity.
Qed.

(** [process_file] never raises: its [except] clause takes everything. *)
Lemma process_file_returns w path ext ie ve d1 d2 st :
  result_of (process_file w path ext ie ve d1 d2 st) = inr tt.
Proof.
  destruct (kind_of ext ie ve) eqn:Hk.
  - assert (Hi : in_tuple ext ie = true).
    { unfold kind_of in Hk. destruct (in_tuple ext ie); [reflexivity|].
      destruct (in_tuple ext ve); discriminate. }
    destruct (average_hash w path) as [err|h] eqn:Hh.
    + rewrite (process_file_hash_raises _ _ _ _ _ _ _ _ _ Hi Hh). reflexivity.
    + destruct (image_hashes st !! h) as [e|] eqn:He.
      * rewrite (process_file_duplicate _ _ _ _ _ _ _ _ _ _ Hi Hh He). reflexivity.
      * rewrite (process_file_first_seen _ _ _ _ _ _ _ _ _ Hi Hh He). reflexivity.
  - rewrite (process_file_video _ _ _ _ _ _ _ _ Hk). reflexivity.
  - rewrite (process_file_ignored _ _ _ _ _ _ _ _ Hk). reflexivity.
Qed.

Lemma events_of_mk {A} (r : exn + A) (st : state) (evs : list event) :
  events_of (r, st, evs) = evs.
Proof. reflexivity. Qed.

Lemma state_of_mk {A} (r : exn + A) (st : state) (evs : list event) :
  state_of (r, st, evs) = st.
Proof. reflexivity. Qed.

Lemma result_of_mk {A} (r : exn + A) (st : state) (evs : list event) :
  result_of (r, st, evs) = r.
Proof. reflexivity. Qed.

Lemma image_metadata_no_error w path :
  List.filter is_error (events_of (get_image_metadata w path initial_state)) = [].
Proof.
  unfold get_image_metadata, try_except, bind, call_getexif,
    bind, emit, lift, print, emit, ret, events_of.
  simpl. destruct (getexif w path) as [e|d]; simpl; [reflexivity|].
  destruct (truthy d); reflexivity.
Qed.

Lemma tail_events_no_hash w path dt u f name_of dir :
  List.filter is_hash_call (tail_events w path dt u f name_of dir) = [].
Proof.
  unfold tail_events. destruct f as [err|d]; [reflexivity|].
  cbn. destruct (copy2 w path _); reflexivity.
Qed.

Lemma tail_events_copies w path dt u f name_of dir :
  copies (tail_events w path dt u f name_of dir)
  = match f with
    | inl _ => []
    | inr d => [(path, join dir (name_of d))]
    end.
Proof.
  unfold tail_events, copies. destruct f as [err|d]; [reflexivity|].
  cbn. destruct (copy2 w path _); reflexivity.
Qed.

Lemma duplicate_events_copies w path f name_of dir :
  copies (duplicate_events w path f name_of dir)
  = match f with
    | inl _ => []
    | inr d => [(path, join dir (name_of d))]
    end.
Proof.
  unfold duplicate_events, copies. destruct f as [err|d]; [reflexivity|].
  cbn. destruct (copy2 w path _); reflexivity.
Qed.

Lemma copies_app (a b : list event) : copies (a ++ b) = (copies a ++ copies b)%list.
Proof. unfold copies. apply omap_app. Qed.

Lemma kind_image ext ie ve : kind_of ext ie ve = Image <-> in_tuple ext ie = true.
Proof.
  unfold kind_of. destruct (in_tuple ext ie); [tauto|].
  destruct (in_tuple ext ve); split; discriminate.
Qed.

(** ** C7: files of no known kind *)

(** C7.  A file whose extension is in neither tuple is left alone: the
    task that [process_files] submits for it returns at once, with the
    state as it was and not a single event, hence no error report, no
    hash computed and no copy made. *)
Theorem ignored_file_no_action (w : World) (output_dir subdir file : string)
    (st : state) :
  kind_of_file file = Ignored ->
  task w output_dir (join subdir file, lower (snd (splitext file))) st
  = (inr tt, st, []).
Proof.
  intros Hk. unfold task. cbn [fst snd].
  apply process_file_ignored. exact Hk.
Qed.

Lemma ignored_file_no_action_witness :
  kind_of_file "notes.txt" = Ignored
  /\ task Demo.world "out" (join "in" "notes.txt", lower (snd (splitext "notes.txt")))
       initial_state
     = (inr tt, initial_state, []).
Proof.
  split; [reflexivity|].
  apply (ignored_file_no_action Demo.world "out" "in" "notes.txt" initial_state).
  reflexivity.
Defined.

(** ** C6: only images are hashed *)

(** C6.  Whenever the extension is not routed as an image (so for every
    video, and for every ignored file), a run of [process_file] contains
    no call of the hash function. *)
Theorem only_images_hashed (w : World) (path ext : string)
    (ie ve : list string) (d1 d2 : string) (st : state) :
  kind_of ext ie ve <> Image ->
  List.filter is_hash_call (events_of (process_file w path ext ie ve d1 d2 st)) = [].
Proof.
  intros Hk. destruct (kind_of ext ie ve) eqn:Hkind; [congruence| |].
  - rewrite (process_file_video _ _ _ _ _ _ _ _ Hkind), events_of_mk.
    rewrite !List.filter_app, tail_events_no_hash.
    destruct (video_metadata_no_hash w path) as [-> _]. reflexivity.
  - rewrite (process_file_ignored _ _ _ _ _ _ _ _ Hkind). reflexivity.
Qed.

Lemma only_images_hashed_witness :
  kind_of ".mp4" image_extensions video_extensions <> Image
  /\ List.filter is_hash_call
       (events_of (process_file Demo.world "in/v.mp4" ".mp4" image_extensions
                     video_extensions "out/images" "out/videos" initial_state))
     = [].
Proof.
  assert (H : kind_of ".mp4" image_extensions video_extensions <> Image)
    by (vm_compute; discriminate).
  split; [exact H|].
  apply (only_images_hashed Demo.world "in/v.mp4" ".mp4" image_extensions
           video_extensions "out/images" "out/videos" initial_state H).
Defined.

(** ** C5: an image that cannot be decoded *)

(** C5.  When hashing an image raises, [process_file] ends with the
    report of that error as its last event, makes no copy, and leaves
    the state as it found it: the image is not entered in
    [image_hashes] as a first-seen one. *)
Theorem undecodable_image_fails (w : World) (path ext : string)
    (ie ve : list string) (d1 d2 : string) (st : state) (err : exn) :
  kind_of ext ie ve = Image ->
  average_hash w path = inl err ->
  let r := process_file w path ext ie ve d1 d2 st in
  result_of r = inr tt
  /\ state_of r = st
  /\ copies (events_of r) = []
  /\ List.filter is_error (events_of r) = [Print (ProcessingError path err)]
  /\ last (events_of r) = Some (Print (ProcessingError path err)).
Proof.
  intros Hk Hh. apply kind_image in Hk.
  cbv zeta. rewrite (process_file_hash_raises _ _ _ _ _ _ _ _ _ Hk Hh).
  rewrite result_of_mk, state_of_mk, events_of_mk.
  destruct (image_metadata_no_hash w path) as [_ Hc].
  repeat split.
  - rewrite copies_app, Hc. reflexivity.
  - rewrite List.filter_app, image_metadata_no_error. reflexivity.
  - change [CallAverageHash path; Print (ProcessingError path err)]
      with ([CallAverageHash path] ++ [Print (ProcessingError path err)])%list.
    rewrite List.app_assoc. apply last_snoc.
Qed.

Lemma undecodable_image_fails_witness :
  kind_of ".jpg" image_extensions video_extensions = Image
  /\ average_hash Demo.world "in/broken.jpg" = inl "cannot identify image file"
  /\ let r := process_file Demo.world "in/broken.jpg" ".jpg" image_extensions
                video_extensions "out/images" "out/videos" initial_state in
     result_of r = inr tt
     /\ state_of r = initial_state
     /\ copies (events_of r) = []
     /\ List.filter is_error (events_of r)
        = [Print (ProcessingError "in/broken.jpg" "cannot identify image file")]
     /\ last (events_of r)
        = Some (Print (ProcessingError "in/broken.jpg" "cannot identify image file")).
Proof.
  split; [reflexivity|]. split; [reflexivity|].
  apply (undecodable_image_fails Demo.world "in/broken.jpg" ".jpg"
           image_extensions video_extensions "out/images" "out/videos"
           initial_state "cannot identify image file"); reflexivity.
Defined.

(** ** C4: what the extractors return *)

Lemma exif_get_nil key default : exif_get (exif_dict []) key default = default.
Proof. reflexivity. Qed.

(** A tag dictionary without tag 36867 has no ['DateTimeOriginal']. *)
Lemma exif_get_absent (items : list (N * string)) :
  (forall v, ~ In (36867%N, v) items) ->
  exif_get (exif_dict items) (TagName "DateTimeOriginal") "Unknown" = "Unknown".
Proof.
  intros Habs. unfold exif_get.
  destruct (List.find _ _) as [[k v]|] eqn:Hf; [|reflexivity].
  exfalso. apply List.find_some in Hf as [Hin Hk]. cbn [fst] in Hk.
  apply List.in_rev in Hin. unfold exif_dict in Hin.
  apply List.in_map_iff in Hin as [[tag v'] [Heq Hin]].
  cbn [fst snd] in Heq. injection Heq as <- <-.
  rewrite TAGS_get_original in Hk. apply N.eqb_eq in Hk. subst tag.
  exact (Habs _ Hin).
Qed.

(** C4, as the script has it.  Neither extractor ever raises and neither
    touches the state.  The only diagnostic is the one printed when
    opening or reading the file raises, and the result is then
    ['Unknown'].  When nothing raises there is no diagnostic at all: an
    image gives the text stored under ['DateTimeOriginal'] as it is,
    unparsed, or ['Unknown'] when the tag dictionary is missing or has
    no such field; a video gives its creation time rendered as
    ['%Y:%m:%d %H:%M:%S'] when that is a [datetime], ['Unknown']
    otherwise. *)
Theorem extractors_never_raise (w : World) (path : string) (st : state) :
  get_image_metadata w path st
  = match getexif w path with
    | inl e => (inr "Unknown", st, [CallGetExif path; Print (MetadataError path e)])
    | inr None => (inr "Unknown", st, [CallGetExif path])
    | inr (Some items) =>
        (inr (exif_get (exif_dict items) (TagName "DateTimeOriginal") "Unknown"),
         st, [CallGetExif path])
    end
  /\ get_video_metadata w path st
     = match creation_time w path with
       | inl e =>
           (inr "Unknown", st, [CallVideoFileClip path; Print (MetadataError path e)])
       | inr (Some (InfoDatetime t)) =>
           (inr (strftime_exif (year_padded w) t), st, [CallVideoFileClip path])
       | inr _ => (inr "Unknown", st, [CallVideoFileClip path])
       end.
Proof.
  split.
  - unfold get_image_metadata, try_except, bind, call_getexif, bind, emit,
      lift, print, emit, ret.
    destruct (getexif w path) as [e|[[|kv items]|]]; reflexivity.
  - unfold get_video_metadata, try_except, bind, call_creation_time, bind,
      emit, lift, print, emit, ret.
    destruct (creation_time w path) as [e|[[t|s]|]]; reflexivity.
Qed.

(** C4 fails as stated: a PNG without EXIF data and a video without a
    creation time both give ['Unknown'] with nothing printed, and a
    capture date that [strptime] rejects is returned as it stands
    rather than as ['Unknown']. *)
Lemma extractor_unknown_without_diagnostic :
  get_image_metadata Demo.world "in/c.png" initial_state
  = (inr "Unknown", initial_state, [CallGetExif "in/c.png"])
  /\ List.filter is_print
       (events_of (get_image_metadata Demo.world "in/c.png" initial_state)) = []
  /\ get_video_metadata Demo.world "in/v.mp4" initial_state
     = (inr "Unknown", initial_state, [CallVideoFileClip "in/v.mp4"])
  /\ get_image_metadata Demo.world "in/z.jpg" initial_state
     = (inr "0000:00:00 00:00:00", initial_state, [CallGetExif "in/z.jpg"])
  /\ strptime "0000:00:00 00:00:00" = None.
Proof. repeat split; reflexivity. Qed.

(** ** C9: the case of the extension *)



Lemma lower_ascii_idem c : lower_ascii (lower_ascii c) = lower_ascii c.
Proof.
  destruct c as [[] [] [] [] [] [] [] []]; reflexivity.
Qed.

Lemma lower_idem s : lower (lower s) = lower s.
Proof.
  induction s as [|c s IH]; [reflexivity|].
  cbn [lower]. rewrite lower_ascii_idem, IH. reflexivity.
Qed.






(** ** Dates *)

Lemma strptime_valid s t : strptime s = Some t -> valid t = true.
Proof.
  unfold strptime. destruct (regex_matches s) as [|[t' rest] l]; [discriminate|].
  destruct (String.eqb rest "") ; cbn; [|discriminate].
  destruct (valid t') eqn:Hv; [|discriminate]. intros [= <-]. exact Hv.
Qed.

Lemma digit_char_inj a b :
  (a < 10)%N -> (b < 10)%N -> digit_char a = digit_char b -> a = b.
Proof.
  intros Ha Hb H. unfold digit_char in H.
  apply (f_equal N_of_ascii) in H.
  rewrite !N_ascii_embedding in H by lia. lia.
Qed.

Lemma digits2 n : (n < 100)%N -> n = (10 * (n / 10 mod 10) + n mod 10)%N.
Proof.
  intros Hn. pose proof (N.div_mod n 10). pose proof (N.mod_lt n 10).
  assert (n / 10 < 10)%N by (apply N.Div0.div_lt_upper_bound; lia).
  rewrite (N.mod_small (n / 10)) by lia. lia.
Qed.

Lemma digits4 y :
  (y < 10000)%N ->
  y = (1000 * (y / 1000 mod 10) + 100 * (y / 100 mod 10)
       + 10 * (y / 10 mod 10) + y mod 10)%N.
Proof.
  intros Hy.
  change 1000%N with (10 * 10 * 10)%N at 2. change 100%N with (10 * 10)%N at 2.
  rewrite <- !N.Div0.div_div.
  pose proof (N.div_mod y 10). pose proof (N.mod_lt y 10).
  pose proof (N.div_mod (y / 10) 10). pose proof (N.mod_lt (y / 10) 10).
  pose proof (N.div_mod (y / 10 / 10) 10). pose proof (N.mod_lt (y / 10 / 10) 10).
  assert (y / 10 / 10 / 10 < 10)%N.
  { rewrite !N.Div0.div_div. apply N.Div0.div_lt_upper_bound. lia. }
  rewrite (N.mod_small (y / 10 / 10 / 10)) by lia. lia.
Qed.

Lemma pad2_inj a b : (a < 100)%N -> (b < 100)%N -> pad2 a = pad2 b -> a = b.
Proof.
  intros Ha Hb H. unfold pad2 in H. injection H as H1 H0.
  apply digit_char_inj in H1; [|apply N.mod_lt; lia ..].
  apply digit_char_inj in H0; [|apply N.mod_lt; lia ..].
  rewrite (digits2 a Ha), (digits2 b Hb). congruence.
Qed.

Lemma pad4_inj a b : (a < 10000)%N -> (b < 10000)%N -> pad4 a = pad4 b -> a = b.
Proof.
  intros Ha Hb H. unfold pad4, pad2 in H. injection H as H3 H2 H1 H0.
  apply digit_char_inj in H3; [|apply N.mod_lt; lia ..].
  apply digit_char_inj in H2; [|apply N.mod_lt; lia ..].
  apply digit_char_inj in H1; [|apply N.mod_lt; lia ..].
  apply digit_char_inj in H0; [|apply N.mod_lt; lia ..].
  rewrite (digits4 a Ha), (digits4 b Hb). congruence.
Qed.

Lemma valid_bounds t :
  valid t = true -> (year t < 10000 /\ month t < 100 /\ day t < 100)%N.
Proof.
  unfold valid. rewrite !andb_true_iff, !N.leb_le.
  intros ((((((((_ & Hy) & _) & Hm) & _) & Hd) & _) & _) & _).
  assert (days_in_month (year t) (month t) <= 31)%N.
  { unfold days_in_month.
    destruct (month t) as [|[[[[]|[]|]|[[]|[]|]|]|[[[]|[]|]|[[]|[]|]|]|]];
      try destruct (leap (year t)); lia. }
  lia.
Qed.

(** ** Texts made of digits *)

Lemma append_cons c r s : (String c r ++ s)%string = String c (r ++ s)%string.
Proof. reflexivity. Qed.

Lemma append_empty s : ("" ++ s)%string = s.
Proof. reflexivity. Qed.

Lemma is_digit_digit_char x : (x < 10)%N -> is_digit (digit_char x) = true.
Proof.
  intros Hx. unfold is_digit, digit_char.
  rewrite N_ascii_embedding by lia.
  apply andb_true_iff. split; apply N.leb_le; lia.
Qed.


Lemma append_assoc a b c : (a ++ (b ++ c))%string = ((a ++ b) ++ c)%string.
Proof.
  induction a as [|x a IH]; [reflexivity|].
  rewrite !append_cons, IH. reflexivity.
Qed.

Lemma append_cancel_l p a b : (p ++ a)%string = (p ++ b)%string -> a = b.
Proof.
  induction p as [|c p IH]; intros H; [exact H|].
  rewrite !append_cons in H. injection H as H. exact (IH H).
Qed.

Lemma has_dot_digits d : has_dot (NilEmpty.string_of_uint d) = false.
Proof. induction d; cbn; auto. Qed.

Lemma has_dot_str_int n : has_dot (str_int n) = false.
Proof.
  unfold str_int, NilZero.string_of_uint.
  destruct (N.to_uint n); try apply has_dot_digits. reflexivity.
Qed.

Lemma str_int_inj n m : str_int n = str_int m -> n = m.
Proof.
  intros H. apply DecimalN.Unsigned.to_uint_inj.
  assert (Hnn : forall k, N.to_uint k <> Decimal.Nil).
  { intros [|p]; [discriminate|]. apply DecimalPos.Unsigned.to_uint_nonnil. }
  unfold str_int in H. apply (f_equal NilZero.uint_of_string) in H.
  rewrite !NilZero.usu in H by apply Hnn. congruence.
Qed.

Lemma all_digits_uint d : all_digits (NilEmpty.string_of_uint d) = true.
Proof. induction d; cbn; auto. Qed.

Lemma all_digits_str_int n : all_digits (str_int n) = true.
Proof.
  unfold str_int, NilZero.string_of_uint.
  destruct (N.to_uint n); try apply all_digits_uint. reflexivity.
Qed.

Lemma all_digits_pad2 n : all_digits (pad2 n) = true.
Proof.
  unfold pad2. cbn [all_digits].
  rewrite !is_digit_digit_char by (apply N.mod_lt; lia). reflexivity.
Qed.

Lemma all_digits_pad4 n : all_digits (pad4 n) = true.
Proof.
  unfold pad4. cbn [all_digits].
  rewrite !is_digit_digit_char by (apply N.mod_lt; lia).
  apply all_digits_pad2.
Qed.

Lemma all_digits_year_text padded y : all_digits (year_text padded y) = true.
Proof.
  destruct padded; [apply all_digits_pad4|apply all_digits_str_int].
Qed.

(** Digits followed by something else: the digits end where they end. *)
Lemma digits_then_other s1 :
  forall s2 c1 c2 r1 r2,
    all_digits s1 = true -> all_digits s2 = true ->
    is_digit c1 = false -> is_digit c2 = false ->
    (s1 ++ String c1 r1)%string = (s2 ++ String c2 r2)%string ->
    s1 = s2 /\ r1 = r2.
Proof.
  induction s1 as [|a s1 IH]; intros [|b s2] c1 c2 r1 r2 H1 H2 Hc1 Hc2 H.
  - rewrite !append_empty in H. injection H as _ H. split; [reflexivity|exact H].
  - rewrite append_empty, append_cons in H. injection H as -> _.
    cbn [all_digits] in H2. rewrite Hc1 in H2. discriminate H2.
  - rewrite append_empty, append_cons in H. injection H as <- _.
    cbn [all_digits] in H1. rewrite Hc2 in H1. discriminate H1.
  - rewrite !append_cons in H. injection H as <- H.
    cbn [all_digits] in H1, H2.
    apply andb_true_iff in H1 as [_ H1]. apply andb_true_iff in H2 as [_ H2].
    destruct (IH s2 c1 c2 r1 r2 H1 H2 Hc1 Hc2 H) as [-> ->].
    split; reflexivity.
Qed.

Lemma year_text_first padded y :
  exists c rest, year_text padded y = String c rest /\ is_digit c = true.
Proof.
  pose proof (all_digits_year_text padded y) as Hd.
  destruct (year_text padded y) as [|c rest] eqn:Hy.
  - exfalso. destruct padded; [discriminate Hy|].
    unfold year_text, str_int, NilZero.string_of_uint in Hy.
    destruct (N.to_uint y) eqn:Hu; try discriminate Hy.
  - cbn [all_digits] in Hd. apply andb_true_iff in Hd as [Hc _].
    exists c, rest. split; [reflexivity|exact Hc].
Qed.



Lemma year_text_inj padded y1 y2 :
  (y1 < 10000)%N -> (y2 < 10000)%N ->
  year_text padded y1 = year_text padded y2 -> y1 = y2.
Proof.
  destruct padded; [apply pad4_inj|]. intros _ _. apply str_int_inj.
Qed.

(** Dates that differ in the day, the month or the year are rendered
    differently. *)
Lemma strftime_ymd_inj padded t1 t2 :
  valid t1 = true -> valid t2 = true ->
  strftime_ymd padded t1 = strftime_ymd padded t2 ->
  year t1 = year t2 /\ month t1 = month t2 /\ day t1 = day t2.
Proof.
  intros H1 H2 H.
  destruct (valid_bounds _ H1) as (Hy1 & Hm1 & Hd1).
  destruct (valid_bounds _ H2) as (Hy2 & Hm2 & Hd2).
  unfold strftime_ymd in H.
  apply digits_then_other in H as [Hy H];
    [|apply all_digits_year_text ..|reflexivity|reflexivity].
  apply year_text_inj in Hy; [|assumption ..].
  unfold pad2 in H. rewrite !append_cons, !append_empty in H.
  injection H as Ha Hb Hc Hd.
  assert (Hm : pad2 (month t1) = pad2 (month t2))
    by (unfold pad2; congruence).
  assert (Hday : pad2 (day t1) = pad2 (day t2))
    by (unfold pad2; congruence).
  auto using pad2_inj.
Qed.

Lemma format_date_taken_parsed padded dt t :
  strptime dt = Some t ->
  format_date_taken padded dt = inr (strftime_ymd padded t).
Proof.
  intros Hp. unfold format_date_taken.
  destruct (String.eqb_spec dt "Unknown") as [->|Hne]; cbn.
  - vm_compute in Hp. discriminate Hp.
  - rewrite Hp. reflexivity.
Qed.

(** ** The copy made by one call *)

(** The copies a call of [process_file] asks for: at most one, and its
    destination by kind, date, hash or identifier, and the count found
    in [image_hashes]. *)
Lemma process_file_copies w path ext ie ve d1 d2 st :
  copies (events_of (process_file w path ext ie ve d1 d2 st))
  = match kind_of ext ie ve with
    | Ignored => []
    | Video =>
        match format_date_taken (year_padded w) (video_date_taken w path) with
        | inl _ => []
        | inr d =>
            [(path, join d2 (plain_file_name d (uuid4 w (uuid_draws st)) ext))]
        end
    | Image =>
        match average_hash w path with
        | inl _ => []
        | inr h =>
            match format_date_taken (year_padded w) (image_date_taken w path) with
            | inl _ => []
            | inr d =>
                [(path,
                  join d1
                    match image_hashes st !! h with
                    | Some e => duplicate_file_name d h (duplicate_count e) ext
                    | None => plain_file_name d h ext
                    end)]
            end
        end
    end.
Proof.
  destruct (kind_of ext ie ve) eqn:Hk.
  - pose proof (proj1 (kind_image _ _ _) Hk) as Hi.
    destruct (image_metadata_no_hash w path) as [_ Hc].
    destruct (average_hash w path) as [err|h] eqn:Hh.
    + rewrite (process_file_hash_raises _ _ _ _ _ _ _ _ _ Hi Hh), events_of_mk.
      rewrite copies_app, Hc. reflexivity.
    + destruct (image_hashes st !! h) as [e|] eqn:He.
      * rewrite (process_file_duplicate _ _ _ _ _ _ _ _ _ _ Hi Hh He), events_of_mk.
        rewrite !copies_app, Hc, duplicate_events_copies.
        destruct (format_date_taken _ _); reflexivity.
      * rewrite (process_file_first_seen _ _ _ _ _ _ _ _ _ Hi Hh He), events_of_mk.
        rewrite !copies_app, Hc, tail_events_copies.
        destruct (format_date_taken _ _); reflexivity.
  - destruct (video_metadata_no_hash w path) as [_ Hc].
    rewrite (process_file_video _ _ _ _ _ _ _ _ Hk), events_of_mk.
    rewrite !copies_app, Hc, tail_events_copies.
    destruct (format_date_taken _ _); reflexivity.
  - rewrite (process_file_ignored _ _ _ _ _ _ _ _ Hk). reflexivity.
Qed.

(** The dictionary after a call of [process_file]. *)
Lemma process_file_registry w path ext ie ve d1 d2 st :
  image_hashes (state_of (process_file w path ext ie ve d1 d2 st))
  = match kind_of ext ie ve, average_hash w path with
    | Image, inr h =>
        match image_hashes st !! h with
        | Some e =>
            <[h := mk_entry (file_path e) (duplicate_count e + 1)]> (image_hashes st)
        | None => <[h := mk_entry path 1]> (image_hashes st)
        end
    | _, _ => image_hashes st
    end.
Proof.
  destruct (kind_of ext ie ve) eqn:Hk.
  - pose proof (proj1 (kind_image _ _ _) Hk) as Hi.
    destruct (average_hash w path) as [err|h] eqn:Hh.
    + rewrite (process_file_hash_raises _ _ _ _ _ _ _ _ _ Hi Hh). reflexivity.
    + destruct (image_hashes st !! h) as [e|] eqn:He.
      * rewrite (process_file_duplicate _ _ _ _ _ _ _ _ _ _ Hi Hh He). reflexivity.
      * rewrite (process_file_first_seen _ _ _ _ _ _ _ _ _ Hi Hh He). reflexivity.
  - rewrite (process_file_video _ _ _ _ _ _ _ _ Hk). reflexivity.
  - rewrite (process_file_ignored _ _ _ _ _ _ _ _ Hk). reflexivity.
Qed.


(** ** C3: where a file is copied to *)




(** ** C8: the name depends on its inputs only *)

Lemma event_before_copy_app pre :
  forall prev rest,
    copies pre = [] ->
    event_before_copy prev (pre ++ rest)
    = event_before_copy (match last pre with Some e => Some e | None => prev end)
        rest.
Proof.
  induction pre as [|e pre IH]; intros prev rest Hc; [reflexivity|].
  rewrite last_cons.
  assert (Hpre : copies pre = [] /\ is_copy e = None).
  { unfold copies in *. cbn [omap list_omap] in Hc.
    destruct (is_copy e); [discriminate Hc|]. split; [exact Hc|reflexivity]. }
  destruct Hpre as [Hpre He].
  change ((e :: pre) ++ rest)%list with (e :: (pre ++ rest))%list.
  destruct e; try discriminate He; cbn [event_before_copy];
    rewrite (IH _ _ Hpre); destruct (last pre); reflexivity.
Qed.

Lemma tail_events_before w path dt u f name_of dir prev :
  event_before_copy prev (tail_events w path dt u f name_of dir)
  = match f with inl _ => None | inr _ => Some prev end.
Proof. unfold tail_events. destruct f; reflexivity. Qed.

Lemma duplicate_events_before w path f name_of dir prev :
  event_before_copy prev (duplicate_events w path f name_of dir)
  = match f with inl _ => None | inr _ => Some prev end.
Proof. unfold duplicate_events. destruct f; reflexivity. Qed.

Lemma process_file_named_without_calls w path ext ie ve d1 d2 st :
  named_without_calls path (events_of (process_file w path ext ie ve d1 d2 st)).
Proof.
  unfold named_without_calls.
  pose proof (process_file_copies w path ext ie ve d1 d2 st) as Hcopies.
  destruct (kind_of ext ie ve) eqn:Hk.
  - pose proof (proj1 (kind_image _ _ _) Hk) as Hi.
    destruct (image_metadata_no_hash w path) as [_ Hc].
    destruct (average_hash w path) as [err|h] eqn:Hh.
    + rewrite Hcopies.
      rewrite (process_file_hash_raises _ _ _ _ _ _ _ _ _ Hi Hh), events_of_mk.
      rewrite (event_before_copy_app _ _ _ Hc). reflexivity.
    + destruct (image_hashes st !! h) as [e|] eqn:Hst.
      * rewrite Hcopies.
        rewrite (process_file_duplicate _ _ _ _ _ _ _ _ _ _ Hi Hh Hst), events_of_mk.
        rewrite (event_before_copy_app _ _ _ Hc).
        rewrite (event_before_copy_app [_; _]) by reflexivity.
        rewrite duplicate_events_before.
        destruct (format_date_taken _ _); reflexivity.
      * rewrite Hcopies.
        rewrite (process_file_first_seen _ _ _ _ _ _ _ _ _ Hi Hh Hst), events_of_mk.
        rewrite (event_before_copy_app _ _ _ Hc).
        rewrite (event_before_copy_app [_; _]) by reflexivity.
        rewrite tail_events_before.
        destruct (format_date_taken _ _); reflexivity.
  - destruct (video_metadata_no_hash w path) as [_ Hc].
    rewrite Hcopies.
    rewrite (process_file_video _ _ _ _ _ _ _ _ Hk), events_of_mk.
    rewrite (event_before_copy_app _ _ _ Hc).
    rewrite (event_before_copy_app [_]) by reflexivity.
    rewrite tail_events_before.
    destruct (format_date_taken _ _); reflexivity.
  - rewrite (process_file_ignored _ _ _ _ _ _ _ _ Hk). reflexivity.
Qed.

(** C8, as the script has it.  Take two calls of [process_file] on the
    same extension and output directories, on one platform, in any two
    worlds and states and on any two paths.  If they agree on the
    capture date, on the hash (for an image) or the identifier drawn
    (for a video), and on the count stored for the hash, then they ask
    for the same destination: nothing else of the world, of the state
    or of the path enters the name.  The naming is not free of calls as
    a block, since line 71 draws an identifier; but in either call the
    copy follows that draw (for a duplicate: the message of line 49)
    at once, so that lines 72-82 and 52-58 call nothing and print
    nothing. *)
Theorem placement_deterministic (w1 w2 : World) (p1 p2 ext : string)
    (ie ve : list string) (d1 d2 : string) (st1 st2 : state) :
  year_padded w1 = year_padded w2 ->
  (kind_of ext ie ve = Image ->
     image_date_taken w1 p1 = image_date_taken w2 p2
     /\ fingerprint w1 p1 = fingerprint w2 p2
     /\ forall h, fingerprint w1 p1 = Some h ->
          duplicate_count <$> image_hashes st1 !! h
          = duplicate_count <$> image_hashes st2 !! h) ->
  (kind_of ext ie ve = Video ->
     video_date_taken w1 p1 = video_date_taken w2 p2
     /\ uuid4 w1 (uuid_draws st1) = uuid4 w2 (uuid_draws st2)) ->
  List.map snd (copies (events_of (process_file w1 p1 ext ie ve d1 d2 st1)))
  = List.map snd (copies (events_of (process_file w2 p2 ext ie ve d1 d2 st2)))
  /\ named_without_calls p1 (events_of (process_file w1 p1 ext ie ve d1 d2 st1))
  /\ named_without_calls p2 (events_of (process_file w2 p2 ext ie ve d1 d2 st2)).
Proof.
  intros Hpad HI HV.
  split; [|split; apply process_file_named_without_calls].
  rewrite !process_file_copies, <- Hpad.
  destruct (kind_of ext ie ve).
  - destruct (HI eq_refl) as (Hd & Hf & Hn). rewrite <- Hd.
    unfold fingerprint in Hf, Hn.
    destruct (average_hash w1 p1) as [e1|h1], (average_hash w2 p2) as [e2|h2];
      try discriminate; [reflexivity|].
    injection Hf as <-. specialize (Hn h1 eq_refl).
    destruct (format_date_taken _ _); [reflexivity|].
    destruct (image_hashes st1 !! h1) as [a|], (image_hashes st2 !! h1) as [b|];
      try discriminate; [|reflexivity].
    cbn in Hn. injection Hn as ->. reflexivity.
  - destruct (HV eq_refl) as (Hd & Hu). rewrite <- Hd, <- Hu.
    destruct (format_date_taken _ _); reflexivity.
  - reflexivity.
Qed.

Lemma placement_deterministic_witness :
  List.map snd (copies (events_of
    (process_file Demo.world "shots/x.jpg" ".jpg" image_extensions
       video_extensions "out/images" "out/videos" initial_state)))
  = List.map snd (copies (events_of
    (process_file Demo.world "shots/y.jpg" ".jpg" image_extensions
       video_extensions "out/images" "out/videos" (mk_state ∅ 7)))).
Proof.
  apply (placement_deterministic Demo.world Demo.world "shots/x.jpg"
           "shots/y.jpg" ".jpg" image_extensions video_extensions
           "out/images" "out/videos" initial_state (mk_state ∅ 7)).
  - reflexivity.
  - intros _. split; [reflexivity|]. split; [reflexivity|].
    intros h Hh. vm_compute in Hh. injection Hh as <-. reflexivity.
  - intros Hk. vm_compute in Hk. discriminate Hk.
Defined.

(** C8 fails as stated: naming is not free of calls.  For the first
    image of the demonstration tree, lines 71-82 open with a draw from
    [uuid4], although an image is named by its hash; the draw is the
    event before the copy, and the count of draws has moved. *)
Lemma naming_draws_an_identifier :
  let r := process_file Demo.world "in/a.jpg" ".jpg" image_extensions
             video_extensions "out/images" "out/videos" initial_state in
  events_of r
  = [CallGetExif "in/a.jpg"; CallAverageHash "in/a.jpg"; CallUuid4;
     CallCopy2 "in/a.jpg" "out/images/2023-05-01-ffd8c0c0e0f0f8fc.jpg";
     Print (FileCopied "a.jpg" "2023:05:01 10:00:00" "6f1c2a9e-0000-4000-8000-0"
              "out/images/2023-05-01-ffd8c0c0e0f0f8fc.jpg")]
  /\ uuid_draws initial_state = 0%nat
  /\ uuid_draws (state_of r) = 1%nat.
Proof. repeat split; vm_compute; reflexivity. Qed.

(** ** C10: the date of a duplicate *)

(** C10, as the script has it.  The name of a detected duplicate starts
    with the day of the duplicate's own capture date, whatever file is
    registered under its hash; and when the registered file was taken on
    another day, the two date parts differ.  (Two capture times on the
    same day give the same date part.) *)
Theorem duplicate_dated_by_own_metadata (w : World) (path ext : string)
    (ie ve : list string) (d1 d2 : string) (st : state) (h : string)
    (e : entry) (t : datetime) :
  kind_of ext ie ve = Image ->
  average_hash w path = inr h ->
  image_hashes st !! h = Some e ->
  strptime (image_date_taken w path) = Some t ->
  copies (events_of (process_file w path ext ie ve d1 d2 st))
  = [(path, join d1 (strftime_ymd (year_padded w) t ++ "-" ++ h ++ "_duplicate_"
                     ++ str_int (duplicate_count e) ++ ext))]
  /\ forall t0,
       strptime (image_date_taken w (file_path e)) = Some t0 ->
       (year t0, month t0, day t0) <> (year t, month t, day t) ->
       strftime_ymd (year_padded w) t0 <> strftime_ymd (year_padded w) t.
Proof.
  intros Hk Hh He Ht. split.
  - rewrite process_file_copies, Hk, Hh, He.
    rewrite (format_date_taken_parsed _ _ _ Ht). reflexivity.
  - intros t0 Ht0 Hne Heq. apply Hne.
    apply strftime_ymd_inj in Heq as (-> & -> & ->);
      eauto using strptime_valid.
Qed.

Lemma duplicate_dated_by_own_metadata_witness :
  let st := state_of (task Demo.world "out" ("in/a.jpg", ".jpg") initial_state) in
  copies (events_of (process_file Demo.world "in/sub/d.jpeg" ".jpeg"
            image_extensions video_extensions "out/images" "out/videos" st))
  = [("in/sub/d.jpeg", "out/images/2022-12-24-ffd8c0c0e0f0f8fc_duplicate_1.jpeg")].
Proof.
  exact (proj1 (duplicate_dated_by_own_metadata Demo.world "in/sub/d.jpeg" ".jpeg"
    image_extensions video_extensions "out/images" "out/videos"
    (state_of (task Demo.world "out" ("in/a.jpg", ".jpg") initial_state))
    "ffd8c0c0e0f0f8fc" (mk_entry "in/a.jpg" 1) (mk_datetime 2022 12 24 18 0 0)
    eq_refl eq_refl eq_refl eq_refl)).
Defined.

(** C10 fails as stated: [a.jpg] and [b.JPG] have the same hash and
    capture times that differ (10:00:00 and 11:30:00 on the same day),
    and both are stored under the date part [2023-05-01]. *)
Lemma same_day_duplicates_share_date :
  average_hash Demo.world "in/a.jpg" = average_hash Demo.world "in/sub/b.JPG"
  /\ image_date_taken Demo.world "in/a.jpg" = "2023:05:01 10:00:00"
  /\ image_date_taken Demo.world "in/sub/b.JPG" = "2023:05:01 11:30:00"
  /\ copies (events_of (run_tasks Demo.world "out"
               [("in/a.jpg", ".jpg"); ("in/sub/b.JPG", ".jpg")] initial_state))
     = [("in/a.jpg", "out/images/2023-05-01-ffd8c0c0e0f0f8fc.jpg");
        ("in/sub/b.JPG", "out/images/2023-05-01-ffd8c0c0e0f0f8fc_duplicate_1.jpg")].
Proof. repeat split; reflexivity. Qed.

(** ** C1: the ordinals of duplicates *)

Lemma run_tasks_cons w out it rest st :
  run_tasks w out (it :: rest) st
  = (result_of (run_tasks w out rest (state_of (task w out it st))),
     state_of (run_tasks w out rest (state_of (task w out it st))),
     events_of (task w out it st)
     ++ events_of (run_tasks w out rest (state_of (task w out it st))))%list.
Proof.
  cbn [run_tasks]. unfold bind.
  pose proof (process_file_returns w (fst it) (snd it) image_extensions
    video_extensions (join out "images") (join out "videos") st) as Hr.
  fold (task w out it) in Hr.
  destruct (task w out it st) as [[r st1] ev1]. cbn in Hr. subst r.
  unfold result_of, state_of, events_of. cbn [fst snd].
  destruct (run_tasks w out rest st1) as [[r2 st2] ev2]. reflexivity.
Qed.

(** Once the hash is registered with count [k + 1], the images that
    follow are numbered [k + 1], [k + 2], ... *)
Lemma duplicates_numbered w out h p0 rest :
  forall (k : nat) (st : state),
    image_hashes st !! h = Some (mk_entry p0 (N.of_nat (S k))) ->
    Forall (image_with_hash w h) rest ->
    copies (events_of (run_tasks w out rest st))
    = imap (fun i it =>
              (fst it,
               join (join out "images")
                 (duplicate_file_name (image_date_part w (fst it)) h
                    (N.of_nat (S (k + i))) (snd it)))) rest
    /\ image_hashes (state_of (run_tasks w out rest st)) !! h
       = Some (mk_entry p0 (N.of_nat (S (k + length rest)))).
Proof.
  induction rest as [|it rest IH]; intros k st Hst Hall.
  - cbn. rewrite Nat.add_0_r. split; [reflexivity|exact Hst].
  - apply Forall_cons in Hall as [(Hk & Hh & Hd) Hall].
    rewrite run_tasks_cons, events_of_mk, state_of_mk, copies_app.
    specialize (IH (S k) (state_of (task w out it st))).
    destruct IH as [IHc IHs]; [|exact Hall|].
    { unfold task. rewrite process_file_registry, Hk, Hh, Hst.
      rewrite lookup_insert_eq. cbn [file_path duplicate_count].
      f_equal. f_equal. lia. }
    split.
    + rewrite IHc. unfold task at 1. rewrite process_file_copies, Hk, Hh, Hd, Hst.
      cbn [duplicate_count List.app imap]. rewrite Nat.add_0_r. f_equal.
      apply imap_ext. intros i x _. cbn [compose].
      replace (S k + i)%nat with (k + S i)%nat by lia. reflexivity.
    + rewrite IHs. cbn [length].
      replace (S k + length rest)%nat with (k + S (length rest))%nat by lia.
      reflexivity.
Qed.

(** Once the hash is registered with count [k + 1], the images that
    follow use up the counts [k + 1], [k + 2], ..., copied or not. *)
Lemma hashed_images_numbered w out h p0 rest :
  forall (k : nat) (st : state),
    image_hashes st !! h = Some (mk_entry p0 (N.of_nat (S k))) ->
    Forall (hashed_image w h) rest ->
    copies (events_of (run_tasks w out rest st))
    = concat (imap (fun i it =>
        match format_date_taken (year_padded w) (image_date_taken w (fst it)) with
        | inl _ => []
        | inr d =>
            [(fst it,
              join (join out "images")
                (duplicate_file_name d h (N.of_nat (S (k + i))) (snd it)))]
        end) rest)
    /\ image_hashes (state_of (run_tasks w out rest st)) !! h
       = Some (mk_entry p0 (N.of_nat (S (k + length rest)))).
Proof.
  induction rest as [|it rest IH]; intros k st Hst Hall.
  - cbn. rewrite Nat.add_0_r. split; [reflexivity|exact Hst].
  - apply Forall_cons in Hall as [(Hk & Hh) Hall].
    rewrite run_tasks_cons, events_of_mk, state_of_mk, copies_app.
    specialize (IH (S k) (state_of (task w out it st))).
    destruct IH as [IHc IHs]; [|exact Hall|].
    { unfold task. rewrite process_file_registry, Hk, Hh, Hst.
      rewrite lookup_insert_eq. cbn [file_path duplicate_count].
      f_equal. f_equal. lia. }
    split.
    + rewrite IHc. unfold task at 1. rewrite process_file_copies, Hk, Hh, Hst.
      cbn [duplicate_count imap concat]. rewrite Nat.add_0_r. f_equal.
      f_equal. apply imap_ext. intros i x _. cbn [compose].
      replace (S k + i)%nat with (k + S i)%nat by lia. reflexivity.
    + rewrite IHs. cbn [length].
      replace (S k + length rest)%nat with (k + S (length rest))%nat by lia.
      reflexivity.
Qed.

(** C1, as the script has it.  Let the first of [n] images with one hash
    meet a dictionary without that hash, and run them one after the
    other.  An image is copied unless its capture date is neither
    ['Unknown'] nor a date that parses.  The first, if copied, gets the
    plain name; the image at position [i] (counting the first as 0), if
    copied, gets a name ending in [_duplicate_i]: the ordinal is the
    count read before the increment, the entry starting at 1, and an
    image that is not copied uses up its ordinal all the same.  So the
    first duplicate is [_duplicate_1], the ordinals used are
    1, ..., n-1, and the entry ends with count [n]. *)
Theorem duplicate_ordinals_from_one (w : World) (output_dir h : string)
    (first : string * string) (rest : list (string * string)) (st : state) :
  image_hashes st !! h = None ->
  Forall (hashed_image w h) (first :: rest) ->
  let r := run_tasks w output_dir (first :: rest) st in
  let date_of it :=
    format_date_taken (year_padded w) (image_date_taken w (fst it)) in
  copies (events_of r)
  = (match date_of first with
     | inl _ => []
     | inr d =>
         [(fst first,
           join (join output_dir "images") (plain_file_name d h (snd first)))]
     end
     ++ concat (imap (fun i it =>
          match date_of it with
          | inl _ => []
          | inr d =>
              [(fst it,
                join (join output_dir "images")
                  (duplicate_file_name d h (N.of_nat (S i)) (snd it)))]
          end) rest))%list
  /\ image_hashes (state_of r) !! h
     = Some (mk_entry (fst first) (N.of_nat (S (length rest)))).
Proof.
  intros Hst Hall. apply Forall_cons in Hall as [(Hk & Hh) Hall].
  cbv zeta. rewrite run_tasks_cons, events_of_mk, state_of_mk, copies_app.
  destruct (hashed_images_numbered w output_dir h (fst first) rest 0
              (state_of (task w output_dir first st))) as [Hc Hs];
    [|exact Hall|].
  { unfold task. rewrite process_file_registry, Hk, Hh, Hst.
    apply lookup_insert_eq. }
  split.
  - rewrite Hc. unfold task at 1. rewrite process_file_copies, Hk, Hh, Hst.
    destruct (format_date_taken _ _); reflexivity.
  - rewrite Hs. reflexivity.
Qed.

Lemma duplicate_ordinals_from_one_witness :
  copies (events_of (run_tasks Burst.world "out" (file_paths Burst.tree)
                       initial_state))
  = [("burst/f1.jpg", "out/images/2024-03-09-3c3c7e7effff7e3c.jpg");
     ("burst/f3.jpg", "out/images/2024-03-09-3c3c7e7effff7e3c_duplicate_2.jpg")]
  /\ image_hashes (state_of (run_tasks Burst.world "out" (file_paths Burst.tree)
                               initial_state)) !! "3c3c7e7effff7e3c"
     = Some (mk_entry "burst/f1.jpg" 3).
Proof.
  refine (duplicate_ordinals_from_one Burst.world "out" "3c3c7e7effff7e3c"
    ("burst/f1.jpg", ".jpg") [("burst/f2.jpg", ".jpg"); ("burst/f3.jpg", ".jpg")]
    initial_state _ _).
  - reflexivity.
  - repeat constructor.
Defined.

(** C1 fails as stated.  The two byte-identical JPEGs of the scenario,
    taken on 2023-05-01 at 10:00:00: the second is copied under
    [_duplicate_1], not [_duplicate_2]. *)
Lemma first_duplicate_is_numbered_one :
  copies (events_of (process_files Demo.world Demo.twins "out" initial_state))
  = [("shots/x.jpg", "out/images/2023-05-01-8f0f1f3f7fffff00.jpg");
     ("shots/y.jpg", "out/images/2023-05-01-8f0f1f3f7fffff00_duplicate_1.jpg")]
  /\ ~ In ("shots/y.jpg", "out/images/2023-05-01-8f0f1f3f7fffff00_duplicate_2.jpg")
        (copies (events_of (process_files Demo.world Demo.twins "out" initial_state))).
Proof.
  split; [reflexivity|].
  vm_compute. intros [H|[H|[]]]; discriminate H.
Qed.

(** ** C2: the dictionary under two workers *)

Import Interleaving.

Lemma run_app (a b : list nat) (c : config) : run (a ++ b) c = run b (run a c).
Proof. unfold run. apply fold_left_app. Qed.

Lemma run_repeat (i : nat) :
  forall (n : nat) (reg : gmap string entry) (ws : list worker) (t : worker),
    ws !! i = Some t ->
    run (repeat i n) (reg, ws)
    = ((Nat.iter n (fun c => step1 c.1 c.2) (reg, t)).1,
       <[i := (Nat.iter n (fun c => step1 c.1 c.2) (reg, t)).2]> ws).
Proof.
  induction n as [|n IH]; intros reg ws t Ht.
  - cbn. rewrite list_insert_id by exact Ht. reflexivity.
  - rewrite Nat.iter_succ_r. cbn [repeat run fold_left].
    unfold step at 2. cbn [fst snd]. rewrite Ht.
    destruct (step1 reg t) as [reg' t'] eqn:Hs.
    fold (run (repeat i n) (reg', <[i := t']> ws)).
    rewrite (IH reg' (<[i := t']> ws) t').
    + rewrite list_insert_insert_eq. reflexivity.
    + apply list_lookup_insert_eq. eapply lookup_lt_Some, Ht.
Qed.

Lemma complete_all_length (ts : list worker) :
  forall reg, length (complete_all reg ts).2 = length ts.
Proof.
  induction ts as [|t ts IH]; intros reg; [reflexivity|].
  cbn [complete_all]. destruct (complete reg t) as [reg1 t1].
  specialize (IH reg1). destruct (complete_all reg1 ts) as [reg2 ts2].
  cbn in *. congruence.
Qed.

(** The serial schedule runs every task to its end in turn. *)
Lemma run_serial_from (todo : list worker) :
  forall (finished : list worker) (reg : gmap string entry),
    run (flat_map (fun i => repeat i statements)
           (seq (length finished) (length todo)))
        (reg, finished ++ todo)%list
    = ((complete_all reg todo).1, (finished ++ (complete_all reg todo).2)%list).
Proof.
  induction todo as [|t todo IH]; intros finished reg.
  - reflexivity.
  - cbn [length seq flat_map]. rewrite run_app.
    rewrite (run_repeat _ _ _ _ t) by apply list_lookup_middle, eq_refl.
    fold (complete reg t). cbn [complete_all].
    destruct (complete reg t) as [reg1 t1]. cbn [fst snd].
    replace (<[length finished := t1]> (finished ++ t :: todo)%list)
      with ((finished ++ [t1]) ++ todo)%list.
    2:{ rewrite <- List.app_assoc. cbn.
        rewrite insert_app_r_alt by lia.
        rewrite Nat.sub_diag. reflexivity. }
    replace (S (length finished)) with (length (finished ++ [t1])%list)
      by (rewrite length_app; cbn; lia).
    rewrite IH. destruct (complete_all reg1 todo) as [reg2 todo2].
    cbn [fst snd]. rewrite <- List.app_assoc. reflexivity.
Qed.

Lemma run_serial (reg : gmap string entry) (ts : list worker) :
  run (serial (length ts)) (reg, ts) = complete_all reg ts.
Proof.
  unfold serial. pose proof (run_serial_from ts [] reg) as H.
  cbn [length List.app] in H. rewrite H.
  destruct (complete_all reg ts). reflexivity.
Qed.

Lemma step1_test reg h path :
  step1 reg (mk_worker path h AtTest)
  = (reg, mk_worker path h
            match reg !! h with Some _ => AtPrint | None => AtInsert end).
Proof.
  unfold step1. cbn [w_pc w_hash w_path].
  destruct (reg !! h) as [e|] eqn:He.
  - rewrite bool_decide_eq_true_2 by eauto. reflexivity.
  - rewrite bool_decide_eq_false_2 by (intros [x Hx]; discriminate Hx).
    reflexivity.
Qed.

Lemma complete_first_seen reg h path :
  reg !! h = None ->
  complete reg (start h path)
  = (<[h := mk_entry path 1]> reg, mk_worker path h (Finished FirstSeen)).
Proof.
  intros Hn. unfold complete, statements, start, Nat.iter.
  cbn [nat_rect fst snd].
  rewrite step1_test, Hn. reflexivity.
Qed.

Lemma step1_print reg h path e :
  reg !! h = Some e ->
  step1 reg (mk_worker path h AtPrint)
  = (reg, mk_worker path h (AtReadCount (file_path e))).
Proof. intros He. unfold step1. cbn [w_pc w_hash w_path]. rewrite He. reflexivity. Qed.

Lemma step1_read_count reg h path e original :
  reg !! h = Some e ->
  step1 reg (mk_worker path h (AtReadCount original))
  = (reg, mk_worker path h (AtIncrement original (duplicate_count e))).
Proof. intros He. unfold step1. cbn [w_pc w_hash w_path]. rewrite He. reflexivity. Qed.

Lemma step1_increment reg h path e original n :
  reg !! h = Some e ->
  step1 reg (mk_worker path h (AtIncrement original n))
  = (<[h := mk_entry (file_path e) (duplicate_count e + 1)]> reg,
     mk_worker path h (Finished (Duplicate n original))).
Proof. intros He. unfold step1. cbn [w_pc w_hash w_path]. rewrite He. reflexivity. Qed.

Lemma complete_duplicate reg h path e :
  reg !! h = Some e ->
  complete reg (start h path)
  = (<[h := mk_entry (file_path e) (duplicate_count e + 1)]> reg,
     mk_worker path h (Finished (Duplicate (duplicate_count e) (file_path e)))).
Proof.
  intros Hs. unfold complete, statements, start, Nat.iter.
  cbn [nat_rect fst snd].
  rewrite step1_test, Hs. cbn [fst snd].
  rewrite (step1_print _ _ _ _ Hs). cbn [fst snd].
  rewrite (step1_read_count _ _ _ _ _ Hs). cbn [fst snd].
  rewrite (step1_increment _ _ _ _ _ _ Hs). reflexivity.
Qed.

Lemma complete_all_duplicates h p0 (paths : list string) :
  forall (k : nat) (reg : gmap string entry),
    reg !! h = Some (mk_entry p0 (N.of_nat (S k))) ->
    outcomes (complete_all reg (List.map (start h) paths))
    = imap (fun i _ => Some (Duplicate (N.of_nat (S (k + i))) p0)) paths
    /\ (complete_all reg (List.map (start h) paths)).1 !! h
       = Some (mk_entry p0 (N.of_nat (S (k + length paths))))
    /\ forall h', h' <> h ->
         (complete_all reg (List.map (start h) paths)).1 !! h' = reg !! h'.
Proof.
  induction paths as [|p paths IH]; intros k reg Hreg.
  - cbn. rewrite Nat.add_0_r. auto.
  - cbn [List.map complete_all]. rewrite (complete_duplicate _ _ _ _ Hreg).
    cbn [file_path duplicate_count].
    specialize (IH (S k) (<[h := mk_entry p0 (N.of_nat (S k) + 1)]> reg)).
    destruct IH as (IHo & IHr & IHf).
    { rewrite lookup_insert_eq. do 2 f_equal. lia. }
    destruct (complete_all _ (List.map (start h) paths)) as [reg2 ts2].
    unfold outcomes in *. cbn [fst snd List.map outcome_of w_pc imap length] in *.
    split; [|split].
    + rewrite Nat.add_0_r. f_equal. rewrite IHo.
      apply imap_ext. intros i x _. cbn [compose].
      replace (S k + i)%nat with (k + S i)%nat by lia. reflexivity.
    + rewrite IHr.
      replace (S k + length paths)%nat with (k + S (length paths))%nat by lia.
      reflexivity.
    + intros h' Hne. rewrite (IHf h' Hne). apply lookup_insert_ne. congruence.
Qed.

Lemma ordinals_of_duplicates p0 (paths : list string) :
  forall k : nat,
    omap ordinal_of
      (imap (fun i _ => Some (Duplicate (N.of_nat (S (k + i))) p0)) paths)
    = List.map N.of_nat (seq (S k) (length paths)).
Proof.
  induction paths as [|p paths IH]; intros k; [reflexivity|].
  cbn [imap length seq List.map]. rewrite Nat.add_0_r.
  change (omap ordinal_of (Some (Duplicate (N.of_nat (S k)) p0) :: ?l))
    with (N.of_nat (S k) :: omap ordinal_of l).
  f_equal. rewrite <- (IH (S k)). f_equal.
  apply imap_ext. intros i x _. cbn [compose].
  replace (S k + i)%nat with (k + S i)%nat by lia. reflexivity.
Qed.

(** C2, as the script has it.  When the tasks for one hash run one after
    the other, none overlapping another, the first and only the first
    observes first-seen, every later one is a duplicate of the first,
    the ordinals are 1, 2, ..., n-1 in the order of the tasks, the one
    entry under the hash ends with count [n], and no other key is
    touched. *)
Theorem serial_registration (h p0 : string) (paths : list string)
    (reg : gmap string entry) :
  reg !! h = None ->
  let c := run (serial (S (length paths))) (reg, List.map (start h) (p0 :: paths)) in
  outcomes c
  = Some FirstSeen :: imap (fun i _ => Some (Duplicate (N.of_nat (S i)) p0)) paths
  /\ ordinals c = List.map N.of_nat (seq 1 (length paths))
  /\ c.1 !! h = Some (mk_entry p0 (N.of_nat (S (length paths))))
  /\ forall h', h' <> h -> c.1 !! h' = reg !! h'.
Proof.
  intros Hn. cbv zeta.
  pose proof (run_serial reg (List.map (start h) (p0 :: paths))) as Hrun.
  rewrite length_map in Hrun. cbn [length] in Hrun. rewrite Hrun. clear Hrun.
  cbn [List.map complete_all].
  rewrite (complete_first_seen _ _ _ Hn).
  destruct (complete_all_duplicates h p0 paths 0 (<[h := mk_entry p0 1]> reg))
    as (Ho & Hr & Hf); [apply lookup_insert_eq|].
  destruct (complete_all _ (List.map (start h) paths)) as [reg2 ts2].
  unfold ordinals, outcomes in *.
  cbn [fst snd List.map outcome_of w_pc omap ordinal_of] in *.
  split; [rewrite Ho; reflexivity|].
  split; [|split; [exact Hr|]].
  - rewrite Ho. exact (ordinals_of_duplicates p0 paths 0).
  - intros h' Hne. rewrite (Hf h' Hne). apply lookup_insert_ne. congruence.
Qed.

Lemma serial_registration_witness :
  let c := run (serial 3)
             (∅, List.map (start "ffd8c0c0e0f0f8fc")
                   ["in/a.jpg"; "in/sub/b.JPG"; "in/sub/d.jpeg"]) in
  outcomes c
  = [Some FirstSeen; Some (Duplicate 1 "in/a.jpg"); Some (Duplicate 2 "in/a.jpg")]
  /\ ordinals c = [1; 2]%N
  /\ c.1 !! "ffd8c0c0e0f0f8fc" = Some (mk_entry "in/a.jpg" 3).
Proof.
  assert (Habsent : (∅ : gmap string entry) !! "ffd8c0c0e0f0f8fc" = None)
    by reflexivity.
  destruct (serial_registration "ffd8c0c0e0f0f8fc" "in/a.jpg"
              ["in/sub/b.JPG"; "in/sub/d.jpeg"] ∅ Habsent) as (Ho & Hn & Hr & _).
  split; [exact Ho|]. split; [exact Hn|exact Hr].
Defined.

(** A task run without interruption does to the dictionary what
    [process_file] does to it for an image with that hash. *)
Lemma process_file_as_task w path ext ie ve d1 d2 st h :
  kind_of ext ie ve = Image ->
  average_hash w path = inr h ->
  image_hashes (state_of (process_file w path ext ie ve d1 d2 st))
  = (complete (image_hashes st) (start h path)).1.
Proof.
  intros Hk Hh. rewrite process_file_registry, Hk, Hh.
  destruct (image_hashes st !! h) as [e|] eqn:He.
  - rewrite (complete_duplicate _ _ _ _ He). reflexivity.
  - rewrite (complete_first_seen _ _ _ He). reflexivity.
Qed.

(** C2 fails as stated.  Two tasks for the same hash, scheduled
    statement by statement in turn: both find the hash absent on line
    48 and both insert on line 63, so both observe first-seen and the
    second entry replaces the first.  And with the hash registered, both
    read the count on line 50 before either adds to it on line 51, so
    both are handed ordinal 1. *)
Lemma both_tasks_first_seen :
  (let c := run [0; 1; 0; 1]%nat
              (∅, [start "ffd8c0c0e0f0f8fc" "in/a.jpg";
                   start "ffd8c0c0e0f0f8fc" "in/sub/b.JPG"]) in
   outcomes c = [Some FirstSeen; Some FirstSeen]
   /\ c.1 !! "ffd8c0c0e0f0f8fc" = Some (mk_entry "in/sub/b.JPG" 1))
  /\ (let c := run [0; 1; 0; 1; 0; 1; 0; 1]%nat
                 ({[ "ffd8c0c0e0f0f8fc" := mk_entry "in/a.jpg" 1 ]},
                  [start "ffd8c0c0e0f0f8fc" "in/sub/b.JPG";
                   start "ffd8c0c0e0f0f8fc" "in/sub/d.jpeg"]) in
      ordinals c = [1; 1]%N
      /\ c.1 !! "ffd8c0c0e0f0f8fc" = Some (mk_entry "in/a.jpg" 3)).
Proof. repeat split; vm_compute; reflexivity. Qed.

(** ** The script on a small tree *)

Example splitext_upper : splitext "IMG_1.JPG" = ("IMG_1", ".JPG").
Proof. reflexivity. Qed.

Example splitext_last_dot : splitext "a.tar.gz" = ("a.tar", ".gz").
Proof. reflexivity. Qed.

Example splitext_hidden : splitext ".bashrc" = (".bashrc", "").
Proof. reflexivity. Qed.

Example join_plain : join "out" "images" = "out/images".
Proof. reflexivity. Qed.

Example join_trailing : join "out/" "images" = "out/images".
Proof. reflexivity. Qed.

Example strptime_exif :
  strptime "2023:05:01 10:00:00" = Some (mk_datetime 2023 5 1 10 0 0).
Proof. reflexivity. Qed.

Example strptime_short_fields :
  strptime "2023:5:1  9:7:3" = Some (mk_datetime 2023 5 1 9 7 3).
Proof. reflexivity. Qed.

Example strptime_no_such_day : strptime "2023:02:29 10:00:00" = None.
Proof. reflexivity. Qed.

Example strptime_text_left : strptime "2023:05:01 10:00:00Z" = None.
Proof. reflexivity. Qed.

Example strftime_day :
  forall padded, strftime_ymd padded (mk_datetime 2023 5 1 10 0 0) = "2023-05-01".
Proof. intros []; reflexivity. Qed.

Example strftime_early_year :
  strftime_ymd true (mk_datetime 999 1 1 0 0 0) = "0999-01-01"
  /\ strftime_ymd false (mk_datetime 999 1 1 0 0 0) = "999-01-01".
Proof. split; reflexivity. Qed.

Example file_paths_demo :
  file_paths Demo.tree
  = [("in/a.jpg", ".jpg"); ("in/c.png", ".png"); ("in/notes.txt", ".txt");
     ("in/v.mp4", ".mp4"); ("in/broken.jpg", ".jpg"); ("in/sub/b.JPG", ".jpg");
     ("in/sub/d.jpeg", ".jpeg"); ("in/sub/w.MOV", ".mov")].
Proof. reflexivity. Qed.

Example process_files_demo :
  copies (events_of (process_files Demo.world Demo.tree "out" initial_state))
  = [("in/a.jpg", "out/images/2023-05-01-ffd8c0c0e0f0f8fc.jpg");
     ("in/c.png", "out/images/unknown-0f0f0f0f00000000.png");
     ("in/v.mp4", "out/videos/unknown-6f1c2a9e-0000-4000-8000-2.mp4");
     ("in/sub/b.JPG", "out/images/2023-05-01-ffd8c0c0e0f0f8fc_duplicate_1.jpg");
     ("in/sub/d.jpeg", "out/images/2022-12-24-ffd8c0c0e0f0f8fc_duplicate_2.jpeg");
     ("in/sub/w.MOV", "out/videos/2021-07-04-6f1c2a9e-0000-4000-8000-3.mov")].
Proof. vm_compute. reflexivity. Qed.

(** An image whose capture date does not parse is registered but never
    copied. *)
Example unparsable_date_registered :
  let r := task Demo.world "out" ("in/z.jpg", ".jpg") initial_state in
  copies (events_of r) = []
  /\ image_hashes (state_of r) !! "aaaaaaaa55555555" = Some (mk_entry "in/z.jpg" 1)
  /\ last (events_of r) = Some (Print (ProcessingError "in/z.jpg" "ValueError")).
Proof. repeat split; vm_compute; reflexivity. Qed.

(** * Further properties of the script *)

Import Reading.

(** ** Whole runs *)

Lemma run_tasks_nil w out st : run_tasks w out [] st = (inr tt, st, []).
Proof. reflexivity. Qed.

Lemma run_tasks_result w out items :
  forall st, result_of (run_tasks w out items st) = inr tt.
Proof.
  induction items as [|it items IH]; intros st; [reflexivity|].
  rewrite run_tasks_cons, result_of_mk. apply IH.
Qed.

(** X1.  [process_files] creates the two directories outside any
    [try]: when [os.makedirs] raises, the exception leaves
    [process_files] and not one file has been looked at.  When both
    directories are there, [process_files] returns normally whatever
    happens to the individual files. *)
Theorem process_files_outcome (w : World) (tree : walk) (output_dir : string)
    (st : state) :
  let images := join output_dir "images" in
  let videos := join output_dir "videos" in
  match makedirs w images, makedirs w videos with
  | Some e, _ =>
      process_files w tree output_dir st = (inl e, st, [CallMakedirs images])
  | None, Some e =>
      process_files w tree output_dir st
      = (inl e, st, [CallMakedirs images; CallMakedirs videos])
  | None, None =>
      process_files w tree output_dir st
      = (inr tt,
         state_of (run_tasks w output_dir (file_paths tree) st),
         [CallMakedirs images; CallMakedirs videos]
         ++ events_of (run_tasks w output_dir (file_paths tree) st))%list
  end.
Proof.
  cbv zeta. unfold process_files, call_makedirs, bind, emit, raise, ret.
  destruct (makedirs w (join output_dir "images")) as [e1|]; [reflexivity|].
  destruct (makedirs w (join output_dir "videos")) as [e2|]; [reflexivity|].
  pose proof (run_tasks_result w output_dir (file_paths tree) st) as Hr.
  destruct (run_tasks w output_dir (file_paths tree) st) as [[r s] ev].
  cbn in Hr. subst r. reflexivity.
Qed.

(** X2.  Running the tasks of a list [a ++ b] is running those of [a]
    and then those of [b] from the state [a] left: the events are the
    two traces one after the other. *)
Theorem run_tasks_split (w : World) (output_dir : string)
    (a b : list (string * string)) (st : state) :
  let ra := run_tasks w output_dir a st in
  let rb := run_tasks w output_dir b (state_of ra) in
  state_of (run_tasks w output_dir (a ++ b) st) = state_of rb
  /\ events_of (run_tasks w output_dir (a ++ b) st)
     = (events_of ra ++ events_of rb)%list.
Proof.
  cbv zeta. revert st. induction a as [|it a IH]; intros st.
  - cbn [List.app]. rewrite run_tasks_nil, state_of_mk, events_of_mk.
    split; reflexivity.
  - cbn [List.app]. rewrite !run_tasks_cons, !state_of_mk, !events_of_mk.
    destruct (IH (state_of (task w output_dir it st))) as [IHs IHe].
    rewrite IHs, IHe, List.app_assoc. split; reflexivity.
Qed.

Lemma task_ignored w out it st :
  is_ignored it = true -> task w out it st = (inr tt, st, []).
Proof.
  unfold is_ignored, task. intros H. apply process_file_ignored.
  destruct (kind_of _ _ _); [discriminate ..|reflexivity].
Qed.

(** X3.  Files of no known kind have no influence on the others: taking
    them out of the list changes neither the final state nor a single
    event of the run. *)
Theorem ignored_items_removable (w : World) (output_dir : string)
    (items : list (string * string)) (st : state) :
  run_tasks w output_dir (List.filter (fun it => negb (is_ignored it)) items) st
  = run_tasks w output_dir items st.
Proof.
  revert st. induction items as [|it items IH]; intros st; [reflexivity|].
  cbn [List.filter]. destruct (is_ignored it) eqn:Hi; cbn [negb].
  - rewrite IH, (run_tasks_cons _ _ it), (task_ignored _ _ _ _ Hi).
    rewrite state_of_mk, events_of_mk.
    destruct (run_tasks w output_dir items st) as [[r s] e]. reflexivity.
  - rewrite !run_tasks_cons, IH. reflexivity.
Qed.

Lemma format_date_taken_form padded dt d :
  format_date_taken padded dt = inr d -> date_form padded d.
Proof.
  unfold format_date_taken, date_form.
  destruct (negb (String.eqb dt "Unknown")); [|intros [= <-]; left; reflexivity].
  destruct (strptime dt) as [t|]; [|discriminate].
  intros [= <-]. right. exists t. reflexivity.
Qed.

Lemma strftime_ymd_cons padded t :
  exists c rest, strftime_ymd padded t = String c rest /\ is_digit c = true.
Proof.
  unfold strftime_ymd.
  destruct (year_text_first padded (year t)) as (c & rest & -> & Hc).
  rewrite append_cons. eexists _, _. split; [reflexivity|exact Hc].
Qed.

(** Two date parts followed by equal text are the same up to that text. *)
Lemma date_form_cancel p1 p2 d1 d2 a b :
  date_form p1 d1 -> date_form p2 d2 ->
  (d1 ++ String "-" a)%string = (d2 ++ String "-" b)%string -> a = b.
Proof.
  intros [->|[t1 ->]] [->|[t2 ->]] H.
  - apply (append_cancel_l "unknown-"). exact H.
  - exfalso. destruct (strftime_ymd_cons p2 t2) as (c & rest & Hx & Hc).
    rewrite Hx, !append_cons in H. injection H as H _. subst c.
    discriminate Hc.
  - exfalso. destruct (strftime_ymd_cons p1 t1) as (c & rest & Hx & Hc).
    rewrite Hx, !append_cons in H. injection H as H _. subst c.
    discriminate Hc.
  - unfold strftime_ymd in H. rewrite <- !append_assoc in H.
    apply digits_then_other in H as [_ H];
      try apply all_digits_year_text; try reflexivity.
    unfold pad2 in H. rewrite !append_cons, !append_empty in H.
    injection H as _ _ _ _ H. exact H.
Qed.

Lemma date_form_not_absolute padded d rest :
  date_form padded d -> startswith (String sep "") (d ++ rest) = false.
Proof.
  intros [->|[t ->]]; [reflexivity|].
  destruct (strftime_ymd_cons padded t) as (c & r & Hx & Hc).
  rewrite Hx, append_cons. cbn [startswith].
  destruct (Ascii.eqb_spec sep c) as [<-|]; [discriminate Hc|reflexivity].
Qed.

Lemma append_empty_r s : (s ++ "")%string = s.
Proof.
  induction s as [|c s IH]; [reflexivity|].
  rewrite append_cons, IH. reflexivity.
Qed.

(** A name that is not absolute is put behind the directory. *)
Lemma join_relative dir name :
  startswith (String sep "") name = false ->
  join dir name = (join dir "" ++ name)%string.
Proof.
  unfold join. intros ->. change (startswith (String sep "") "") with false.
  destruct (String.eqb dir "" || endswith_char sep dir)%bool.
  - rewrite append_empty_r. reflexivity.
  - rewrite append_empty_r, <- !append_assoc. reflexivity.
Qed.

Lemma task_copies_cases w out it st :
  copies (events_of (task w out it st)) = []
  \/ exists d rest,
       date_form (year_padded w) d
       /\ (copies (events_of (task w out it st))
           = [(fst it, join (join out "images") "" ++ d ++ "-" ++ rest)]
           \/ copies (events_of (task w out it st))
              = [(fst it, join (join out "videos") "" ++ d ++ "-" ++ rest)]).
Proof.
  unfold task. rewrite process_file_copies.
  destruct (kind_of _ _ _).
  - destruct (average_hash w (fst it)); [left; reflexivity|].
    destruct (format_date_taken _ _) as [|d] eqn:Hd; [left; reflexivity|].
    apply format_date_taken_form in Hd.
    right. exists d.
    destruct (image_hashes st !! _);
      (eexists; split; [exact Hd|]; left;
       rewrite join_relative;
       [reflexivity|exact (date_form_not_absolute _ _ _ Hd)]).
  - destruct (format_date_taken _ _) as [|d] eqn:Hd; [left; reflexivity|].
    apply format_date_taken_form in Hd.
    right. exists d. eexists. split; [exact Hd|]. right.
    rewrite join_relative; [reflexivity|].
    exact (date_form_not_absolute _ _ _ Hd).
  - left. reflexivity.
Qed.

(** X4.  With the tasks taken one at a time, a run copies nothing but
    the files it was given, each at most once and in the order of the
    list.  Every destination lies in the [images] or the [videos]
    directory of the output directory: it is that directory, a
    separator, and a name that starts with a date part ([unknown] or a
    rendered date) and a dash. *)
Theorem copies_come_from_the_list (w : World) (output_dir : string)
    (items : list (string * string)) (st : state) :
  sublist (List.map fst (copies (events_of (run_tasks w output_dir items st))))
          (List.map fst items)
  /\ Forall (fun c =>
               exists d rest,
                 date_form (year_padded w) d
                 /\ (snd c = join (join output_dir "images") ""
                             ++ d ++ "-" ++ rest
                     \/ snd c = join (join output_dir "videos") ""
                                ++ d ++ "-" ++ rest))
            (copies (events_of (run_tasks w output_dir items st))).
Proof.
  revert st. induction items as [|it items IH]; intros st.
  - split; [constructor|]. constructor.
  - rewrite run_tasks_cons, events_of_mk, copies_app, List.map_app.
    destruct (IH (state_of (task w output_dir it st))) as [IHs IHf].
    destruct (task_copies_cases w output_dir it st)
      as [->|(d & rest & Hd & [->| ->])].
    + split; [apply sublist_cons, IHs|exact IHf].
    + split; [apply sublist_skip, IHs|].
      apply Forall_app. split; [|exact IHf].
      repeat constructor. exists d, rest. split; [exact Hd|left; reflexivity].
    + split; [apply sublist_skip, IHs|].
      apply Forall_app. split; [|exact IHf].
      repeat constructor. exists d, rest. split; [exact Hd|right; reflexivity].
Qed.

Lemma entries_kept_refl reg : entries_kept reg reg.
Proof. intros h e He. exists e. repeat split; [exact He|lia]. Qed.

Lemma entries_kept_trans a b c :
  entries_kept a b -> entries_kept b c -> entries_kept a c.
Proof.
  intros Hab Hbc h e He.
  destruct (Hab h e He) as (e1 & H1 & Hp1 & Hc1).
  destruct (Hbc h e1 H1) as (e2 & H2 & Hp2 & Hc2).
  exists e2. repeat split; [exact H2|congruence|lia].
Qed.

Lemma task_entries_kept w out it st :
  entries_kept (image_hashes st) (image_hashes (state_of (task w out it st))).
Proof.
  unfold task. rewrite process_file_registry.
  destruct (kind_of _ _ _); try apply entries_kept_refl.
  destruct (average_hash w (fst it)) as [err|h]; [apply entries_kept_refl|].
  destruct (image_hashes st !! h) as [e0|] eqn:H0; intros k e Hk.
  - destruct (decide (h = k)) as [->|Hne].
    + rewrite lookup_insert_eq. eexists. split; [reflexivity|].
      rewrite Hk in H0. injection H0 as ->. cbn. split; [reflexivity|lia].
    + rewrite lookup_insert_ne by exact Hne. exists e.
      repeat split; [exact Hk|lia].
  - destruct (decide (h = k)) as [->|Hne]; [congruence|].
    rewrite lookup_insert_ne by exact Hne. exists e.
    repeat split; [exact Hk|lia].
Qed.

(** X5.  Tasks run one after the other never remove a key of
    [image_hashes], never change the path registered under a key, and
    never lower a count. *)
Theorem registry_only_grows (w : World) (output_dir : string)
    (items : list (string * string)) (st : state) :
  entries_kept (image_hashes st)
    (image_hashes (state_of (run_tasks w output_dir items st))).
Proof.
  revert st. induction items as [|it items IH]; intros st.
  - apply entries_kept_refl.
  - rewrite run_tasks_cons, state_of_mk.
    eapply entries_kept_trans; [apply task_entries_kept|apply IH].
Qed.

Lemma task_counts_positive w out it st :
  counts_positive (image_hashes st) ->
  counts_positive (image_hashes (state_of (task w out it st))).
Proof.
  intros Hpos. unfold task. rewrite process_file_registry.
  destruct (kind_of _ _ _); try exact Hpos.
  destruct (average_hash w (fst it)) as [err|h]; [exact Hpos|].
  destruct (image_hashes st !! h) as [e0|] eqn:H0; intros k e Hk.
  - destruct (decide (h = k)) as [->|Hne].
    + rewrite lookup_insert_eq in Hk. injection Hk as <-. cbn.
      specialize (Hpos _ _ H0). lia.
    + rewrite lookup_insert_ne in Hk by exact Hne. exact (Hpos _ _ Hk).
  - destruct (decide (h = k)) as [->|Hne].
    + rewrite lookup_insert_eq in Hk. injection Hk as <-. cbn. lia.
    + rewrite lookup_insert_ne in Hk by exact Hne. exact (Hpos _ _ Hk).
Qed.

(** X6.  Started on the empty dictionary, a run leaves every count at 1
    or more: a registered hash has been seen at least once. *)
Theorem counts_at_least_one (w : World) (output_dir : string)
    (items : list (string * string)) :
  counts_positive
    (image_hashes (state_of (run_tasks w output_dir items initial_state))).
Proof.
  assert (Hgen : forall st, counts_positive (image_hashes st) ->
            counts_positive (image_hashes (state_of (run_tasks w output_dir items st)))).
  { induction items as [|it items IH]; intros st Hpos; [exact Hpos|].
    rewrite run_tasks_cons, state_of_mk. apply IH, task_counts_positive, Hpos. }
  apply Hgen. intros h e He. cbn in He. rewrite lookup_empty in He. discriminate.
Qed.

Lemma task_registry_at w out it st h :
  image_hashes (state_of (task w out it st)) !! h
  = if hashes_to w h it then
      match image_hashes st !! h with
      | Some e => Some (mk_entry (file_path e) (duplicate_count e + 1))
      | None => Some (mk_entry (fst it) 1)
      end
    else image_hashes st !! h.
Proof.
  unfold task, hashes_to. rewrite process_file_registry.
  destruct (kind_of _ _ _); try reflexivity.
  destruct (average_hash w (fst it)) as [err|h']; [reflexivity|].
  destruct (String.eqb_spec h' h) as [->|Hne].
  - destruct (image_hashes st !! h); apply lookup_insert_eq.
  - destruct (image_hashes st !! h'); apply lookup_insert_ne; exact Hne.
Qed.

Lemma run_tasks_registry_at w out h items :
  forall st,
    image_hashes (state_of (run_tasks w out items st)) !! h
    = match image_hashes st !! h, List.filter (hashes_to w h) items with
      | Some e, seen =>
          Some (mk_entry (file_path e)
                  (duplicate_count e + N.of_nat (length seen)))
      | None, [] => None
      | None, it :: seen => Some (mk_entry (fst it) (N.of_nat (S (length seen))))
      end.
Proof.
  induction items as [|it items IH]; intros st.
  - cbn. destruct (image_hashes st !! h) as [[p n]|]; [|reflexivity].
    cbn. rewrite N.add_0_r. reflexivity.
  - rewrite run_tasks_cons, state_of_mk, IH, task_registry_at.
    cbn [List.filter]. destruct (hashes_to w h it).
    + destruct (image_hashes st !! h) as [e|]; cbn [file_path duplicate_count length].
      * do 2 f_equal. lia.
      * do 2 f_equal. lia.
    + reflexivity.
Qed.

(** X7.  Started on the empty dictionary, a run registers exactly the
    hashes of the images it could hash; each is registered under the
    first image that had it, and its count is the number of images of
    the list with that hash, whether or not they could then be named
    and copied. *)
Theorem registry_counts_images (w : World) (output_dir h : string)
    (items : list (string * string)) :
  image_hashes (state_of (run_tasks w output_dir items initial_state)) !! h
  = match List.filter (hashes_to w h) items with
    | [] => None
    | it :: seen => Some (mk_entry (fst it) (N.of_nat (S (length seen))))
    end.
Proof.
  rewrite run_tasks_registry_at. cbn [image_hashes initial_state].
  rewrite lookup_empty. reflexivity.
Qed.

(** ** Images registered but not copied *)

(** X8.  [process_file] enters a new hash in [image_hashes] (line 63)
    before it parses the capture date (line 73).  So an image whose
    date is neither ['Unknown'] nor accepted by [strptime] is
    registered and not copied; and the next image with the same hash
    is copied as [_duplicate_1] of a file that is not in the output. *)
Theorem duplicate_of_uncopied_image (w : World) (output_dir h : string)
    (it1 it2 : string * string) (st : state) (err : exn) (d : string) :
  kind_of (snd it1) image_extensions video_extensions = Image ->
  kind_of (snd it2) image_extensions video_extensions = Image ->
  average_hash w (fst it1) = inr h ->
  average_hash w (fst it2) = inr h ->
  image_hashes st !! h = None ->
  format_date_taken (year_padded w) (image_date_taken w (fst it1)) = inl err ->
  format_date_taken (year_padded w) (image_date_taken w (fst it2)) = inr d ->
  copies (events_of (task w output_dir it1 st)) = []
  /\ image_hashes (state_of (task w output_dir it1 st)) !! h
     = Some (mk_entry (fst it1) 1)
  /\ copies (events_of (run_tasks w output_dir [it1; it2] st))
     = [(fst it2,
         join (join output_dir "images") (duplicate_file_name d h 1 (snd it2)))].
Proof.
  intros Hk1 Hk2 Hh1 Hh2 Hst Hf1 Hf2.
  assert (Hc1 : copies (events_of (task w output_dir it1 st)) = []).
  { unfold task. rewrite process_file_copies, Hk1, Hh1, Hf1. reflexivity. }
  assert (Hr1 : image_hashes (state_of (task w output_dir it1 st)) !! h
                = Some (mk_entry (fst it1) 1)).
  { unfold task. rewrite process_file_registry, Hk1, Hh1, Hst.
    apply lookup_insert_eq. }
  split; [exact Hc1|]. split; [exact Hr1|].
  rewrite run_tasks_cons, events_of_mk, copies_app, Hc1.
  rewrite run_tasks_cons, events_of_mk, copies_app.
  rewrite run_tasks_nil, events_of_mk. cbn [List.app].
  unfold task at 1. rewrite process_file_copies, Hk2, Hh2, Hf2, Hr1.
  reflexivity.
Qed.

Lemma duplicate_of_uncopied_image_witness :
  copies (events_of (run_tasks Album.world "out"
            [("cam/p1.jpg", ".jpg"); ("cam/p2.jpg", ".jpg")] initial_state))
  = [("cam/p2.jpg", "out/images/2024-02-29-c3c3c3c3c3c3c3c3_duplicate_1.jpg")].
Proof.
  refine (proj2 (proj2 (duplicate_of_uncopied_image Album.world "out"
    "c3c3c3c3c3c3c3c3" ("cam/p1.jpg", ".jpg") ("cam/p2.jpg", ".jpg")
    initial_state "ValueError" "2024-02-29" _ _ _ _ _ _ _))); reflexivity.
Defined.

(** ** The capture date among the other tags *)

Lemma find_original_rev (items : list (N * string)) (v : string) :
  NoDup (List.map fst items) ->
  In (36867%N, v) items ->
  List.find (fun kv => tag_key_eqb (fst kv) (TagName "DateTimeOriginal"))
    (List.rev (exif_dict items))
  = Some (TagName "DateTimeOriginal", v).
Proof.
  intros Hnd Hin.
  destruct (List.find _ _) as [[k v']|] eqn:Hf.
  - apply List.find_some in Hf as [Hin' Hk]. cbn [fst] in Hk.
    apply List.in_rev in Hin'. unfold exif_dict in Hin'.
    apply List.in_map_iff in Hin' as [[tag v''] [Heq Hin']].
    cbn [fst snd] in Heq. injection Heq as <- <-.
    rewrite TAGS_get_original in Hk. apply N.eqb_eq in Hk. subst tag.
    assert (v'' = v); [|subst; reflexivity].
    clear -Hnd Hin Hin'. induction items as [|[t x] items IH]; [destruct Hin|].
    cbn in Hnd. apply NoDup_cons in Hnd as [Hnotin Hnd].
    destruct Hin as [Heq|Hin], Hin' as [Heq'|Hin'].
    + congruence.
    + injection Heq as -> ->. exfalso. apply Hnotin. apply list_elem_of_In.
      apply (List.in_map fst _ _ Hin').
    + injection Heq' as -> ->. exfalso. apply Hnotin. apply list_elem_of_In.
      apply (List.in_map fst _ _ Hin).
    + exact (IH Hnd Hin Hin').
  - exfalso.
    assert (Hin' : In (TagName "DateTimeOriginal", v) (List.rev (exif_dict items))).
    { apply -> List.in_rev. unfold exif_dict. apply List.in_map_iff.
      exists (36867%N, v). split; [reflexivity|exact Hin]. }
    pose proof (List.find_none _ _ Hf _ Hin') as Hno. discriminate Hno.
Qed.

Lemma get_image_metadata_some w path st items :
  getexif w path = inr (Some items) ->
  get_image_metadata w path st
  = (inr (exif_get (exif_dict items) (TagName "DateTimeOriginal") "Unknown"),
     st, [CallGetExif path]).
Proof.
  intros Hg.
  unfold get_image_metadata, try_except, bind, call_getexif, bind, emit,
    lift, print, emit, ret.
  rewrite Hg. destruct items; reflexivity.
Qed.

(** X9.  When the tag dictionary of an image has tag 36867, whatever
    other tags it has and wherever that tag stands,
    [get_image_metadata] returns the text stored under it: the capture
    date is never taken from [DateTime] or [DateTimeDigitized]. *)
Theorem reads_date_time_original (w : World) (path : string) (st : state)
    (items : list (N * string)) (v : string) :
  getexif w path = inr (Some items) ->
  NoDup (List.map fst items) ->
  In (36867%N, v) items ->
  get_image_metadata w path st = (inr v, st, [CallGetExif path]).
Proof.
  intros Hg Hnd Hin.
  rewrite (get_image_metadata_some _ _ _ _ Hg). unfold exif_get.
  rewrite (find_original_rev _ _ Hnd Hin). reflexivity.
Qed.

Lemma reads_date_time_original_witness :
  get_image_metadata Album.world "cam/p2.jpg" initial_state
  = (inr "2024:02:29 23:59:59", initial_state, [CallGetExif "cam/p2.jpg"]).
Proof.
  apply (reads_date_time_original Album.world "cam/p2.jpg" initial_state
           [ (306, "2024:01:01 00:00:00"); (36867, "2024:02:29 23:59:59");
             (271, "Nikon") ]%N).
  - reflexivity.
  - apply (bool_decide_unpack _). vm_compute. exact I.
  - right. left. reflexivity.
Defined.

(** ** Extensions *)

Lemma splitext_from_no_dot s :
  forall b, has_dot s = false -> splitext_from b s = (s, "").
Proof.
  induction s as [|c s IH]; intros b H; [reflexivity|].
  cbn [has_dot splitext_from] in *.
  destruct (Ascii.eqb c extsep); [discriminate|].
  rewrite (IH true H). reflexivity.
Qed.

Lemma splitext_from_concat s :
  forall b, (fst (splitext_from b s) ++ snd (splitext_from b s))%string = s.
Proof.
  induction s as [|c s IH]; intros b; [reflexivity|].
  cbn [splitext_from]. destruct (Ascii.eqb c extsep).
  - destruct (b && negb (has_dot s))%bool; [reflexivity|].
    specialize (IH b). destruct (splitext_from b s) as [root ext].
    cbn [fst snd] in *. change (String c (root ++ ext)%string = String c s).
    f_equal. exact IH.
  - specialize (IH true). destruct (splitext_from true s) as [root ext].
    cbn [fst snd] in *. change (String c (root ++ ext)%string = String c s).
    f_equal. exact IH.
Qed.

Lemma splitext_from_shape s :
  forall b, extension_shape (snd (splitext_from b s)).
Proof.
  induction s as [|c s IH]; intros b; [left; reflexivity|].
  cbn [splitext_from]. destruct (Ascii.eqb_spec c extsep) as [->|Hc].
  - destruct b, (has_dot s) eqn:Hd; cbn [andb negb].
    + specialize (IH true). destruct (splitext_from true s). exact IH.
    + right. exists s. split; [reflexivity|exact Hd].
    + specialize (IH false). destruct (splitext_from false s). exact IH.
    + specialize (IH false). destruct (splitext_from false s). exact IH.
  - specialize (IH true). destruct (splitext_from true s). exact IH.
Qed.

Lemma splitext_from_leading_dots s :
  has_dot (skip_leading_dots s) = false -> snd (splitext_from false s) = "".
Proof.
  induction s as [|c s IH]; intros H; [reflexivity|].
  cbn [skip_leading_dots splitext_from] in *.
  destruct (Ascii.eqb c extsep) eqn:Hc.
  - cbn [andb]. specialize (IH H). destruct (splitext_from false s). exact IH.
  - cbn [has_dot] in H. rewrite Hc in H.
    rewrite (splitext_from_no_dot s true H). reflexivity.
Qed.

(** X10.  A file name without a dot, or whose only dots are leading
    ones (such as [README], [.jpg] or [..png]), has no extension for
    [os.path.splitext], so [process_files] hands it over with [ext = '']
    and it is ignored, even when the text after the dots is an image
    or a video extension. *)
Theorem dot_files_are_ignored (w : World) (output_dir subdir file : string)
    (st : state) :
  has_dot (skip_leading_dots file) = false ->
  List.map snd (file_paths [(subdir, [file])]) = [""]
  /\ kind_of_file file = Ignored
  /\ run_tasks w output_dir (file_paths [(subdir, [file])]) st = (inr tt, st, []).
Proof.
  intros H. apply splitext_from_leading_dots in H.
  assert (He : lower (snd (splitext file)) = "")
    by (unfold splitext; rewrite H; reflexivity).
  assert (Hk : kind_of_file file = Ignored)
    by (unfold kind_of_file; rewrite He; reflexivity).
  split; [|split; [exact Hk|]].
  - unfold file_paths. cbn. rewrite He. reflexivity.
  - unfold file_paths. cbn [flat_map List.map List.app].
    rewrite run_tasks_cons, run_tasks_nil.
    unfold task. cbn [fst snd].
    rewrite (process_file_ignored _ _ _ _ _ _ _ _ Hk). reflexivity.
Qed.

Lemma dot_files_are_ignored_witness :
  kind_of_file ".jpg" = Ignored /\ kind_of_file "..png" = Ignored.
Proof.
  split.
  - exact (proj1 (proj2 (dot_files_are_ignored Demo.world "out" "in" ".jpg"
                           initial_state eq_refl))).
  - exact (proj1 (proj2 (dot_files_are_ignored Demo.world "out" "in" "..png"
                           initial_state eq_refl))).
Defined.

Lemma lower_ascii_dot c : Ascii.eqb (lower_ascii c) extsep = Ascii.eqb c extsep.
Proof. destruct c as [[] [] [] [] [] [] [] []]; reflexivity. Qed.

Lemma has_dot_lower s : has_dot (lower s) = has_dot s.
Proof.
  induction s as [|c s IH]; [reflexivity|].
  cbn [lower has_dot]. rewrite lower_ascii_dot, IH. reflexivity.
Qed.

Lemma extension_shape_lower ext : extension_shape ext -> extension_shape (lower ext).
Proof.
  intros [->|(r & -> & Hr)]; [left; reflexivity|].
  right. exists (lower r). split; [reflexivity|].
  rewrite has_dot_lower. exact Hr.
Qed.

(** X11.  The list [file_paths] has one item per file of the walk, in
    the order of the walk; each item carries the path joined from the
    directory and the name, and an extension that is already in lower
    case and is either empty or one dot followed by text without a
    dot.  The name splits into root and extension with nothing lost. *)
Theorem file_paths_items (tree : walk) :
  length (file_paths tree) = length (flat_map snd tree)
  /\ Forall (fun it => lower (snd it) = snd it /\ extension_shape (snd it))
            (file_paths tree)
  /\ forall subdir files file,
       In (subdir, files) tree -> In file files ->
       In (join subdir file, lower (snd (splitext file))) (file_paths tree)
       /\ (fst (splitext file) ++ snd (splitext file))%string = file.
Proof.
  split; [|split].
  - induction tree as [|[subdir files] tree IH]; [reflexivity|].
    unfold file_paths in *. cbn [flat_map snd].
    rewrite !length_app, length_map, IH. reflexivity.
  - unfold file_paths. apply Forall_forall. intros it Hin.
    apply list_elem_of_In, List.in_flat_map in Hin as [[subdir files] [_ Hin]].
    apply List.in_map_iff in Hin as [file [<- _]]. cbn [snd]. split.
    + apply lower_idem.
    + apply extension_shape_lower, splitext_from_shape.
  - intros subdir files file Ht Hf. split; [|apply splitext_from_concat].
    unfold file_paths. apply List.in_flat_map. exists (subdir, files).
    split; [exact Ht|]. apply List.in_map_iff. exists file. split; [reflexivity|exact Hf].
Qed.

(** ** The date of a video, written and read back *)


















(** ** Names that cannot collide *)

Lemma digits_then_dot s1 :
  forall s2 r1 r2,
    has_dot s1 = false -> has_dot s2 = false ->
    (s1 ++ String extsep r1)%string = (s2 ++ String extsep r2)%string ->
    s1 = s2.
Proof.
  induction s1 as [|c s1 IH]; intros [|c2 s2] r1 r2 H1 H2 H.
  - reflexivity.
  - rewrite append_empty, append_cons in H. injection H as <- _.
    cbn in H2. discriminate H2.
  - rewrite append_empty, append_cons in H. injection H as -> _.
    cbn in H1. discriminate H1.
  - rewrite !append_cons in H. injection H as <- H.
    cbn [has_dot] in H1, H2. destruct (Ascii.eqb c extsep); [discriminate|].
    f_equal. exact (IH _ _ _ H1 H2 H).
Qed.

Lemma join_cancel dir a b :
  startswith (String sep "") a = false ->
  startswith (String sep "") b = false ->
  join dir a = join dir b -> a = b.
Proof.
  unfold join. intros -> ->.
  destruct (String.eqb dir "" || endswith_char sep dir)%bool.
  - apply append_cancel_l.
  - intros H. apply append_cancel_l in H. apply (append_cancel_l (String sep "")).
    exact H.
Qed.

Lemma image_extension_dot ext :
  kind_of ext image_extensions video_extensions = Image ->
  exists r, ext = String extsep r.
Proof.
  intros Hk. apply kind_image in Hk. unfold in_tuple in Hk.
  apply existsb_exists in Hk as (x & Hin & Heq).
  apply String.eqb_eq in Heq. subst x.
  cbn in Hin. repeat destruct Hin as [<-|Hin]; try (eexists; reflexivity).
  destruct Hin.
Qed.

Lemma duplicate_names_differ p1 p2 d1 d2 h n1 n2 r1 r2 :
  date_form p1 d1 -> date_form p2 d2 ->
  duplicate_file_name d1 h n1 (String extsep r1)
  = duplicate_file_name d2 h n2 (String extsep r2) ->
  n1 = n2.
Proof.
  intros Hd1 Hd2 H. unfold duplicate_file_name in H.
  apply (date_form_cancel _ _ _ _ _ _ Hd1 Hd2) in H.
  apply append_cancel_l in H. apply (append_cancel_l "_duplicate_") in H.
  apply str_int_inj. eapply digits_then_dot; [| |exact H]; apply has_dot_str_int.
Qed.

Lemma plain_name_not_duplicate p0 p d0 d h n r0 e :
  date_form p0 d0 -> date_form p d ->
  plain_file_name d0 h (String extsep r0) <> duplicate_file_name d h n e.
Proof.
  intros Hd0 Hd H. unfold plain_file_name, duplicate_file_name in H.
  apply (date_form_cancel _ _ _ _ _ _ Hd0 Hd) in H.
  apply append_cancel_l in H. discriminate H.
Qed.

Lemma same_hash_copies w out h first rest st :
  image_hashes st !! h = None ->
  Forall (image_with_hash w h) (first :: rest) ->
  List.map snd (copies (events_of (run_tasks w out (first :: rest) st)))
  = join (join out "images")
      (plain_file_name (image_date_part w (fst first)) h (snd first))
    :: imap (fun i it =>
               join (join out "images")
                 (duplicate_file_name (image_date_part w (fst it)) h
                    (N.of_nat (S i)) (snd it))) rest.
Proof.
  intros Hst Hall. apply Forall_cons in Hall as [(Hk & Hh & Hd) Hall].
  rewrite run_tasks_cons, events_of_mk, copies_app, List.map_app.
  destruct (duplicates_numbered w out h (fst first) rest 0
              (state_of (task w out first st))) as [Hc _]; [|exact Hall|].
  { unfold task. rewrite process_file_registry, Hk, Hh, Hst.
    apply lookup_insert_eq. }
  rewrite Hc. unfold task at 1. rewrite process_file_copies, Hk, Hh, Hd, Hst.
  cbn [List.map List.app snd]. f_equal.
  change (List.map snd ?l) with (snd <$> l). rewrite fmap_imap.
  apply imap_ext. intros i x _. reflexivity.
Qed.

(** X13.  Images with one hash, run one after the other from a
    dictionary without that hash and each with a capture date that is
    ['Unknown'] or parses, are all copied to different destinations: no
    duplicate overwrites the first copy or another duplicate. *)
Theorem same_hash_never_overwrites (w : World) (output_dir h : string)
    (items : list (string * string)) (st : state) :
  image_hashes st !! h = None ->
  Forall (image_with_hash w h) items ->
  NoDup (List.map snd (copies (events_of (run_tasks w output_dir items st)))).
Proof.
  intros Hst Hall. destruct items as [|first rest]; [constructor|].
  rewrite (same_hash_copies _ _ _ _ _ _ Hst Hall).
  apply Forall_cons in Hall as [(Hk0 & _ & Hd0) Hall].
  assert (Hitem : forall i it, rest !! i = Some it ->
            date_form (year_padded w) (image_date_part w (fst it))
            /\ exists r, snd it = String extsep r).
  { intros i it Hi.
    pose proof (proj1 (Forall_lookup _ _) Hall i it Hi) as (Hk & _ & Hd).
    split; [exact (format_date_taken_form _ _ _ Hd)|exact (image_extension_dot _ Hk)]. }
  apply NoDup_cons. split.
  - intros Hin. apply elem_of_lookup_imap in Hin as (i & it & Heq & Hi).
    destruct (Hitem i it Hi) as [Hdf _].
    destruct (image_extension_dot _ Hk0) as [r0 Hr0]. rewrite Hr0 in Heq.
    apply join_cancel in Heq.
    + exact (plain_name_not_duplicate _ _ _ _ _ _ _ _
               (format_date_taken_form _ _ _ Hd0) Hdf Heq).
    + eapply date_form_not_absolute. exact (format_date_taken_form _ _ _ Hd0).
    + eapply date_form_not_absolute. exact Hdf.
  - apply NoDup_alt. intros i j x Hi Hj.
    rewrite list_lookup_imap in Hi, Hj.
    destruct (rest !! i) as [it1|] eqn:H1; [|discriminate].
    destruct (rest !! j) as [it2|] eqn:H2; [|discriminate].
    cbn in Hi, Hj. injection Hi as Hi. injection Hj as Hj. subst x.
    destruct (Hitem i it1 H1) as [Hdf1 [r1 Hr1]].
    destruct (Hitem j it2 H2) as [Hdf2 [r2 Hr2]].
    rewrite Hr1, Hr2 in Hj. apply join_cancel in Hj.
    + apply (duplicate_names_differ _ _ _ _ _ _ _ _ _ Hdf2 Hdf1) in Hj. lia.
    + eapply date_form_not_absolute. exact Hdf2.
    + eapply date_form_not_absolute. exact Hdf1.
Qed.

Lemma same_hash_never_overwrites_witness :
  NoDup (List.map snd (copies (events_of (run_tasks Demo.world "out"
           [("in/a.jpg", ".jpg"); ("in/sub/b.JPG", ".jpg"); ("in/sub/d.jpeg", ".jpeg")]
           initial_state)))).
Proof.
  apply (same_hash_never_overwrites Demo.world "out" "ffd8c0c0e0f0f8fc").
  - reflexivity.
  - repeat constructor.
Defined.

(** ** Two workers, any schedule *)

Lemma step1_keeps_keys reg t :
  forall h, is_Some (reg !! h) -> is_Some ((step1 reg t).1 !! h).
Proof.
  intros h Hh. unfold step1.
  destruct (w_pc t); cbn [fst];
    repeat match goal with
    | |- context [bool_decide ?P] => destruct (bool_decide P)
    | |- context [match ?x !! ?k with _ => _ end] => destruct (x !! k)
    end; cbn [fst]; try exact Hh;
    apply lookup_insert_is_Some';  right; exact Hh.
Qed.

Lemma key_present_mono reg reg' t :
  (forall h, is_Some (reg !! h) -> is_Some (reg' !! h)) ->
  key_present reg t -> key_present reg' t.
Proof.
  unfold key_present. intros Hm. destruct (w_pc t) as [| | | | |[]]; auto.
Qed.

Lemma step1_key_present reg t :
  key_present reg t -> key_present (step1 reg t).1 (step1 reg t).2.
Proof.
  unfold key_present, step1. destruct t as [p h pc0]. cbn [w_pc w_hash w_path].
  destruct pc0 as [| |o|o n| |[]]; cbn [fst snd w_pc w_hash].
  - destruct (bool_decide (is_Some (reg !! h))) eqn:Hb; cbn [fst snd w_pc w_hash].
    + intros _. apply bool_decide_eq_true in Hb. exact Hb.
    + intros _. exact I.
  - intros [e He]. rewrite He. cbn. eauto.
  - intros [e He]. rewrite He. cbn. eauto.
  - intros [e He]. rewrite He. cbn. exact I.
  - intros _. exact I.
  - intros _. exact I.
  - intros _. exact I.
  - intros [].
Qed.

Lemma step_key_present i c :
  Forall (key_present c.1) c.2 ->
  Forall (key_present (step i c).1) (step i c).2.
Proof.
  intros Hall. unfold step. destruct (c.2 !! i) as [t|] eqn:Hi; [|exact Hall].
  pose proof (step1_keeps_keys c.1 t) as Hmono.
  pose proof (step1_key_present c.1 t) as Ht.
  destruct (step1 c.1 t) as [reg' t']. cbn [fst snd] in *.
  apply Forall_insert.
  - eapply Forall_impl; [exact Hall|].
    intros x Hx. eapply key_present_mono; [exact Hmono|exact Hx].
  - apply Ht. exact (proj1 (Forall_lookup _ _) Hall i t Hi).
Qed.

Lemma run_key_present schedule :
  forall c, Forall (key_present c.1) c.2 ->
            Forall (key_present (run schedule c).1) (run schedule c).2.
Proof.
  induction schedule as [|i schedule IH]; intros c Hc; [exact Hc|].
  cbn [run fold_left]. apply (IH (step i c)), step_key_present, Hc.
Qed.

Lemma start_key_present reg (jobs : list (string * string)) :
  Forall (key_present reg) (List.map (fun j => start (fst j) (snd j)) jobs).
Proof.
  apply Forall_forall. intros t Ht.
  apply list_elem_of_In, List.in_map_iff in Ht as [j [<- _]]. exact I.
Qed.

(** X14.  Whatever the schedule, no task ever fails on a missing key:
    a hash found on line 48 is still a key on lines 49 to 51, because
    the script never deletes from [image_hashes]. *)
Theorem no_key_error_under_any_schedule (schedule : list nat)
    (reg : gmap string entry) (jobs : list (string * string)) :
  Forall (fun o => o <> Some KeyError)
    (outcomes (run schedule
                 (reg, List.map (fun j => start (fst j) (snd j)) jobs))).
Proof.
  pose proof (run_key_present schedule
                (reg, List.map (fun j => start (fst j) (snd j)) jobs)
                (start_key_present reg jobs)) as H.
  unfold outcomes. apply Forall_forall. intros o Ho.
  apply list_elem_of_In, List.in_map_iff in Ho as [t [<- Ht]].
  apply list_elem_of_In in Ht.
  pose proof (proj1 (Forall_forall _ _) H t Ht) as Hk.
  unfold key_present, outcome_of in *.
  destruct (w_pc t) as [| | | | |[]]; try discriminate. destruct Hk.
Qed.

Lemma step1_statements_left reg t :
  (statements_left (w_pc (step1 reg t).2) <= statements_left (w_pc t) - 1)%nat.
Proof.
  unfold step1. destruct (w_pc t) eqn:Hpc; cbn [snd w_pc];
    repeat match goal with
    | |- context [bool_decide ?P] => destruct (bool_decide P)
    | |- context [match ?x !! ?k with _ => _ end] => destruct (x !! k)
    end; cbn [snd w_pc statements_left]; try rewrite Hpc;
    cbn [statements_left]; lia.
Qed.

Lemma step_statements_left j c i t0 :
  c.2 !! i = Some t0 ->
  exists t, (step j c).2 !! i = Some t
            /\ (statements_left (w_pc t)
                <= statements_left (w_pc t0) - (if decide (j = i) then 1 else 0))%nat.
Proof.
  intros Hi. unfold step. destruct (c.2 !! j) as [tj|] eqn:Hj.
  - pose proof (step1_statements_left c.1 tj) as Hs.
    destruct (step1 c.1 tj) as [reg' tj']. cbn [fst snd] in *.
    destruct (decide (j = i)) as [->|Hne].
    + exists tj'. split.
      * apply list_lookup_insert_eq. eapply lookup_lt_Some, Hi.
      * rewrite Hi in Hj. injection Hj as ->. exact Hs.
    + exists t0. split; [|lia].
      rewrite list_lookup_insert_ne by exact Hne. exact Hi.
  - exists t0. split; [exact Hi|].
    destruct (decide (j = i)) as [->|Hne]; [congruence|lia].
Qed.

Lemma run_statements_left schedule i :
  forall c t0,
    c.2 !! i = Some t0 ->
    exists t, (run schedule c).2 !! i = Some t
              /\ (statements_left (w_pc t)
                  <= statements_left (w_pc t0)
                     - count_occ Nat.eq_dec schedule i)%nat.
Proof.
  induction schedule as [|j schedule IH]; intros c t0 Hi.
  - exists t0. split; [exact Hi|]. cbn. lia.
  - cbn [run fold_left].
    destruct (step_statements_left j c i t0 Hi) as (t1 & H1 & Hle1).
    destruct (IH (step j c) t1 H1) as (t & Ht & Hle).
    exists t. split; [exact Ht|]. cbn [count_occ].
    destruct (Nat.eq_dec j i) as [->|Hne].
    + rewrite decide_True in Hle1 by reflexivity. lia.
    + rewrite decide_False in Hle1 by exact Hne. lia.
Qed.

(** X15.  A task that the schedule lets run four times is through,
    however its turns are mixed with those of the others, and it ends
    as first-seen or as a duplicate. *)
Theorem four_turns_finish_a_task (schedule : list nat) (reg : gmap string entry)
    (jobs : list (string * string)) (i : nat) :
  (i < length jobs)%nat ->
  (statements <= count_occ Nat.eq_dec schedule i)%nat ->
  exists o,
    outcomes (run schedule (reg, List.map (fun j => start (fst j) (snd j)) jobs))
      !! i = Some (Some o)
    /\ o <> KeyError.
Proof.
  intros Hi Hturns.
  destruct (lookup_lt_is_Some_2 (List.map (fun j => start (fst j) (snd j)) jobs) i)
    as [t0 Ht0]; [rewrite length_map; exact Hi|].
  destruct (run_statements_left schedule i
              (reg, List.map (fun j => start (fst j) (snd j)) jobs) t0 Ht0)
    as (t & Ht & Hle).
  assert (Hfin : exists o, w_pc t = Finished o).
  { assert (H4 : (statements_left (w_pc t0) <= 4)%nat)
      by (destruct (w_pc t0); cbn; lia).
    unfold statements in Hturns.
    destruct (w_pc t); cbn [statements_left] in Hle; try lia. eauto. }
  destruct Hfin as [o Ho]. exists o. split.
  - unfold outcomes. change (List.map outcome_of ?l) with (outcome_of <$> l).
    rewrite list_lookup_fmap, Ht. cbn. unfold outcome_of. rewrite Ho. reflexivity.
  - intros ->.
    pose proof (run_key_present schedule
                  (reg, List.map (fun j => start (fst j) (snd j)) jobs)
                  (start_key_present reg jobs)) as Hall.
    pose proof (proj1 (Forall_lookup _ _) Hall i t Ht) as Hk.
    unfold key_present in Hk. rewrite Ho in Hk. exact Hk.
Qed.

Lemma four_turns_finish_a_task_witness :
  exists o,
    outcomes (run [0; 1; 1; 0; 0; 1; 1; 0]%nat
                (∅, List.map (fun j => start (fst j) (snd j))
                      [("ffd8c0c0e0f0f8fc", "in/a.jpg");
                       ("ffd8c0c0e0f0f8fc", "in/sub/b.JPG")]))
      !! 1%nat = Some (Some o)
    /\ o <> KeyError.
Proof.
  apply (four_turns_finish_a_task [0; 1; 1; 0; 0; 1; 1; 0]%nat ∅
           [("ffd8c0c0e0f0f8fc", "in/a.jpg"); ("ffd8c0c0e0f0f8fc", "in/sub/b.JPG")]
           1%nat).
  - cbn. lia.
  - vm_compute. lia.
Defined.

Lemma step1_same_hash reg t : w_hash (step1 reg t).2 = w_hash t.
Proof.
  unfold step1. destruct (w_pc t);
    repeat match goal with
    | |- context [bool_decide ?P] => destruct (bool_decide P)
    | |- context [match ?x !! ?k with _ => _ end] => destruct (x !! k)
    end; reflexivity.
Qed.

Lemma step1_other_key reg t h :
  w_hash t <> h -> (step1 reg t).1 !! h = reg !! h.
Proof.
  intros Hne. unfold step1. destruct (w_pc t);
    repeat match goal with
    | |- context [bool_decide ?P] => destruct (bool_decide P)
    | |- context [match ?x !! ?k with _ => _ end] => destruct (x !! k)
    end; cbn [fst]; try reflexivity; apply lookup_insert_ne; exact Hne.
Qed.

Lemma step_registered_by_a_task h i c :
  registered_by_a_task h c -> registered_by_a_task h (step i c).
Proof.
  unfold registered_by_a_task, step. intros Hinv.
  destruct (c.2 !! i) as [t|] eqn:Hi; [|exact Hinv].
  pose proof (step1_same_hash c.1 t) as Hhash.
  pose proof (step1_keeps_keys c.1 t h) as Hkeep.
  destruct (c.1 !! h) as [e|] eqn:Hreg.
  - (* the key is there: the witness stays *)
    destruct (Hkeep (mk_is_Some _ _ eq_refl)) as [e' He'].
    destruct Hinv as (tw & Hin & Hh & Hpc).
    apply list_elem_of_lookup in Hin as [k Hk].
    destruct (step1 c.1 t) as [reg' t'] eqn:Hs. cbn [fst snd] in *.
    rewrite He'. destruct (decide (k = i)) as [->|Hne].
    + rewrite Hi in Hk. injection Hk as ->.
      assert (t' = tw) as ->.
      { unfold step1 in Hs. rewrite Hpc in Hs. congruence. }
      exists tw. split; [|split; assumption].
      apply list_elem_of_lookup. exists i.
      apply list_lookup_insert_eq. eapply lookup_lt_Some, Hi.
    + exists tw. split; [|split; assumption].
      apply list_elem_of_lookup. exists k.
      rewrite list_lookup_insert_ne by congruence. exact Hk.
  - (* the key is not there yet *)
    pose proof (proj1 (Forall_lookup _ _) Hinv i t Hi) as Ht.
    destruct (decide (w_hash t = h)) as [Heq|Hne].
    + destruct (Ht Heq) as [Hpc|Hpc].
      * (* line 48: the hash is absent, the task goes on to line 63 *)
        unfold step1. rewrite Hpc, Heq, Hreg.
        rewrite bool_decide_eq_false_2 by (intros [x Hx]; discriminate Hx).
        cbn [fst snd]. rewrite Hreg. apply Forall_insert; [exact Hinv|].
        intros _. right. reflexivity.
      * (* line 63: the task inserts and is the witness *)
        unfold step1. rewrite Hpc, Heq. cbn [fst snd].
        rewrite lookup_insert_eq.
        exists (mk_worker (w_path t) h (Finished FirstSeen)).
        split; [|split; reflexivity].
        apply list_elem_of_lookup. exists i.
        apply list_lookup_insert_eq. eapply lookup_lt_Some, Hi.
    + pose proof (step1_other_key c.1 t h Hne) as Hsame.
      destruct (step1 c.1 t) as [reg' t']. cbn [fst snd] in *.
      rewrite Hsame, Hreg. apply Forall_insert; [exact Hinv|].
      intros Hh. congruence.
Qed.

Lemma run_registered_by_a_task h schedule :
  forall c, registered_by_a_task h c -> registered_by_a_task h (run schedule c).
Proof.
  induction schedule as [|i schedule IH]; intros c Hc; [exact Hc|].
  cbn [run fold_left]. apply (IH (step i c)), step_registered_by_a_task, Hc.
Qed.

(** X16.  Whatever the schedule, a hash that was no key at the start
    is never reported as a duplicate without one of the tasks having
    ended as first-seen for it: a race can give two first copies, never
    none. *)
Theorem duplicate_has_a_first_seen (schedule : list nat) (h : string)
    (reg : gmap string entry) (jobs : list (string * string))
    (t : worker) (n : N) (original : string) :
  reg !! h = None ->
  let c := run schedule (reg, List.map (fun j => start (fst j) (snd j)) jobs) in
  t ∈ c.2 -> w_hash t = h -> w_pc t = Finished (Duplicate n original) ->
  first_seen_exists h c.2.
Proof.
  intros Hreg c Hin Hh Hpc.
  assert (Hinv : registered_by_a_task h c).
  { apply run_registered_by_a_task. unfold registered_by_a_task. cbn [fst snd].
    rewrite Hreg. apply Forall_forall. intros x Hx _.
    apply list_elem_of_In, List.in_map_iff in Hx as [j [<- _]].
    left. reflexivity. }
  unfold registered_by_a_task in Hinv.
  destruct (c.1 !! h); [exact Hinv|].
  pose proof (proj1 (Forall_forall _ _) Hinv t Hin Hh) as [Hb|Hb];
    rewrite Hpc in Hb; discriminate Hb.
Qed.

Lemma duplicate_has_a_first_seen_witness :
  first_seen_exists "ffd8c0c0e0f0f8fc"
    (run [0; 0; 1; 0; 1; 1; 1]%nat
       (∅, List.map (fun j => start (fst j) (snd j))
             [("ffd8c0c0e0f0f8fc", "in/a.jpg");
              ("ffd8c0c0e0f0f8fc", "in/sub/b.JPG")])).2.
Proof.
  apply (duplicate_has_a_first_seen [0; 0; 1; 0; 1; 1; 1]%nat "ffd8c0c0e0f0f8fc" ∅
           [("ffd8c0c0e0f0f8fc", "in/a.jpg"); ("ffd8c0c0e0f0f8fc", "in/sub/b.JPG")]
           (mk_worker "in/sub/b.JPG" "ffd8c0c0e0f0f8fc"
              (Finished (Duplicate 1 "in/a.jpg"))) 1 "in/a.jpg").
  - reflexivity.
  - vm_compute. right. left.
  - reflexivity.
  - reflexivity.
Defined.

Lemma file_paths_items_witness :
  In ("in/sub/b.JPG", ".jpg") (file_paths Demo.tree)
  /\ (fst (splitext "b.JPG") ++ snd (splitext "b.JPG"))%string = "b.JPG".
Proof.
  apply (proj2 (proj2 (file_paths_items Demo.tree)) "in/sub"
           ["b.JPG"; "d.jpeg"; "w.MOV"] "b.JPG").
  - right. left. reflexivity.
  - left. reflexivity.
Defined.

(** ** What a call reports *)

Lemma image_metadata_quiet w path :
  omap is_success (events_of (get_image_metadata w path initial_state)) = [].
Proof.
  unfold get_image_metadata, try_except, bind, call_getexif,
    bind, emit, lift, print, emit, ret, events_of.
  simpl. destruct (getexif w path) as [e|d]; simpl; [reflexivity|].
  destruct (truthy d); reflexivity.
Qed.

Lemma video_metadata_quiet w path :
  omap is_success (events_of (get_video_metadata w path initial_state)) = []
  /\ List.filter is_error (events_of (get_video_metadata w path initial_state)) = [].
Proof.
  unfold get_video_metadata, try_except, bind, call_creation_time,
    bind, emit, lift, print, emit, ret, events_of.
  simpl. destruct (creation_time w path) as [e|[[t|s]|]]; split; reflexivity.
Qed.

Lemma reported_after w path pre ending :
  omap is_success pre = [] ->
  List.filter is_error pre = [] ->
  copies pre = [] ->
  reported w path ending ->
  reported w path (pre ++ ending)%list.
Proof.
  intros Hs He Hc [(dst & e & Hl & Hse & Hso & Hco & Hcp & Her)|(err & Hl & Hso & Her)].
  - left. exists dst, e.
    rewrite last_app, Hl, omap_app, Hs, Hso, copies_app, Hc, Hco,
      List.filter_app, He, Her.
    repeat split; assumption.
  - right. exists err.
    rewrite last_app, Hl, omap_app, Hs, Hso, List.filter_app, He, Her.
    repeat split.
Qed.

Lemma reported_error w path err : reported w path [Print (ProcessingError path err)].
Proof. right. exists err. repeat split. Qed.

Lemma reported_tail w path dt u f name_of dir :
  reported w path (tail_events w path dt u f name_of dir).
Proof.
  unfold tail_events. destruct f as [err|d]; [apply reported_error|].
  cbn zeta. destruct (copy2 w path (join dir (name_of d))) as [err|] eqn:Hc.
  - right. exists err. repeat split.
  - left. eexists _, _. repeat split. exact Hc.
Qed.

Lemma reported_duplicate w path f name_of dir :
  reported w path (duplicate_events w path f name_of dir).
Proof.
  unfold duplicate_events. destruct f as [err|d]; [apply reported_error|].
  cbn zeta. destruct (copy2 w path (join dir (name_of d))) as [err|] eqn:Hc.
  - right. exists err. repeat split.
  - left. eexists _, _. repeat split. exact Hc.
Qed.

(** X17.  Every call of [process_file] on an image or a video ends
    with exactly one report.  Either it is a message of success: then
    it names the destination of the one copy that was asked for, that
    copy did not raise, and no error was printed.  Or it is the error
    printed by the [except] clause: then no message of success was
    printed. *)
Theorem one_report_per_file (w : World) (path ext : string)
    (ie ve : list string) (d1 d2 : string) (st : state) :
  kind_of ext ie ve <> Ignored ->
  reported w path (events_of (process_file w path ext ie ve d1 d2 st)).
Proof.
  intros Hk. destruct (kind_of ext ie ve) eqn:Hkind; [| |congruence].
  - pose proof (proj1 (kind_image _ _ _) Hkind) as Hi.
    destruct (image_metadata_no_hash w path) as [_ Hc].
    pose proof (image_metadata_quiet w path) as Hq.
    pose proof (image_metadata_no_error w path) as He.
    destruct (average_hash w path) as [err|h] eqn:Hh.
    + rewrite (process_file_hash_raises _ _ _ _ _ _ _ _ _ Hi Hh), events_of_mk.
      apply reported_after; try assumption.
      apply (reported_after _ _ [CallAverageHash path]); try reflexivity.
      apply reported_error.
    + destruct (image_hashes st !! h) as [e|] eqn:Hst.
      * rewrite (process_file_duplicate _ _ _ _ _ _ _ _ _ _ Hi Hh Hst), events_of_mk.
        apply reported_after; try assumption.
        apply (reported_after _ _ [CallAverageHash path; Print (DuplicateDetected path e)]);
          try reflexivity.
        apply reported_duplicate.
      * rewrite (process_file_first_seen _ _ _ _ _ _ _ _ _ Hi Hh Hst), events_of_mk.
        apply reported_after; try assumption.
        apply (reported_after _ _ [CallAverageHash path; CallUuid4]);
          try reflexivity.
        apply reported_tail.
  - destruct (video_metadata_no_hash w path) as [_ Hc].
    destruct (video_metadata_quiet w path) as [Hq He].
    rewrite (process_file_video _ _ _ _ _ _ _ _ Hkind), events_of_mk.
    apply reported_after; try assumption.
    apply (reported_after _ _ [CallUuid4]); try reflexivity.
    apply reported_tail.
Qed.

Lemma one_report_per_file_witness :
  reported Album.world "cam/p3.png"
    (events_of (process_file Album.world "cam/p3.png" ".png" image_extensions
                  video_extensions "out/images" "out/videos" initial_state)).
Proof.
  apply (one_report_per_file Album.world "cam/p3.png" ".png" image_extensions
           video_extensions "out/images" "out/videos" initial_state).
  vm_compute. discriminate.
Defined.



(** ** Videos and their identifiers *)

Lemma append_same_length u1 :
  forall u2 a b,
    String.length u1 = String.length u2 ->
    (u1 ++ a)%string = (u2 ++ b)%string -> u1 = u2.
Proof.
  induction u1 as [|c u1 IH]; intros [|c2 u2] a b Hlen H;
    try discriminate Hlen; [reflexivity|].
  rewrite !append_cons in H. injection H as <- H.
  f_equal. apply (IH u2 a b); [|exact H].
  cbn in Hlen. lia.
Qed.

Lemma video_destinations_differ w out n1 k2 m dst :
  (forall i j, (i < m)%nat -> (j < m)%nat -> uuid4 w i = uuid4 w j -> i = j) ->
  (forall i, (i < m)%nat -> String.length (uuid4 w i) = 36%nat) ->
  (n1 < k2 <= m)%nat ->
  (exists d ext, date_form (year_padded w) d
     /\ dst = join (join out "videos") (plain_file_name d (uuid4 w n1) ext)) ->
  ~ video_destination w out k2 m dst.
Proof.
  intros Hinj Hlen Hlt (d1 & e1 & Hd1 & ->) (k & d2 & e2 & Hk & Hd2 & Heq).
  apply join_cancel in Heq;
    [|eapply date_form_not_absolute; eassumption ..].
  unfold plain_file_name in Heq.
  apply (date_form_cancel _ _ _ _ _ _ Hd1 Hd2) in Heq.
  apply append_same_length in Heq; [|rewrite !Hlen by lia; reflexivity].
  apply Hinj in Heq; lia.
Qed.

Lemma videos_copies w out m items :
  (forall i j, (i < m)%nat -> (j < m)%nat -> uuid4 w i = uuid4 w j -> i = j) ->
  (forall i, (i < m)%nat -> String.length (uuid4 w i) = 36%nat) ->
  Forall is_video items ->
  forall st,
    (uuid_draws st + length items <= m)%nat ->
    NoDup (List.map snd (copies (events_of (run_tasks w out items st))))
    /\ Forall (video_destination w out (uuid_draws st) m)
         (List.map snd (copies (events_of (run_tasks w out items st)))).
Proof.
  intros Hinj Hlen. induction 1 as [|it items Hv _ IH]; intros st Hm.
  - split; constructor.
  - cbn [length] in Hm.
    rewrite run_tasks_cons, events_of_mk, copies_app, List.map_app.
    assert (Hst : uuid_draws (state_of (task w out it st)) = S (uuid_draws st)).
    { unfold task. rewrite (process_file_video _ _ _ _ _ _ _ _ Hv). reflexivity. }
    destruct (IH (state_of (task w out it st))) as [IHn IHf]; [rewrite Hst; lia|].
    rewrite Hst in IHf.
    unfold task at 1 3. rewrite process_file_copies, Hv.
    destruct (format_date_taken (year_padded w) (video_date_taken w (fst it))) as [err|d] eqn:Hf.
    + cbn [List.map List.app]. split; [exact IHn|].
      eapply Forall_impl; [exact IHf|].
      intros dst (k & d' & e' & Hk & Hd' & ->). exists k, d', e'.
      repeat split; [lia|lia|exact Hd'].
    + cbn [List.map List.app snd]. split.
      * apply NoDup_cons. split; [|exact IHn].
        intros Hin. pose proof (proj1 (Forall_forall _ _) IHf _ Hin) as Hdst.
        revert Hdst.
        apply (video_destinations_differ w out (uuid_draws st) (S (uuid_draws st)) m);
          [exact Hinj|exact Hlen|lia|].
        exists d, (snd it). split; [exact (format_date_taken_form _ _ _ Hf)|reflexivity].
      * constructor.
        -- exists (uuid_draws st), d, (snd it).
           repeat split; [lia|lia|exact (format_date_taken_form _ _ _ Hf)].
        -- eapply Forall_impl; [exact IHf|].
           intros dst (k & d' & e' & Hk & Hd' & ->). exists k, d', e'.
           repeat split; [lia|lia|exact Hd'].
Qed.

(** X19.  As long as [uuid4] does not give the same identifier twice
    during the run (identifiers being 36 characters long), the videos
    of a run are all copied to different destinations, even when they
    have the same name, date and extension: each call draws its own
    identifier. *)
Theorem videos_never_overwrite (w : World) (output_dir : string)
    (items : list (string * string)) (st : state) :
  let m := (uuid_draws st + length items)%nat in
  (forall i j, (i < m)%nat -> (j < m)%nat -> uuid4 w i = uuid4 w j -> i = j) ->
  (forall i, (i < m)%nat -> String.length (uuid4 w i) = 36%nat) ->
  Forall is_video items ->
  NoDup (List.map snd (copies (events_of (run_tasks w output_dir items st)))).
Proof.
  intros m Hinj Hlen Hv.
  exact (proj1 (videos_copies w output_dir m items Hinj Hlen Hv st (le_n _))).
Qed.

Lemma videos_never_overwrite_witness :
  NoDup (List.map snd (copies (events_of (run_tasks Clips.world "out"
           [("clips/day1/a.mp4", ".mp4"); ("clips/day2/a.mp4", ".mp4")]
           initial_state)))).
Proof.
  apply (videos_never_overwrite Clips.world "out"
           [("clips/day1/a.mp4", ".mp4"); ("clips/day2/a.mp4", ".mp4")]
           initial_state).
  - intros [|[|i]] [|[|j]] Hi Hj H; cbn in Hi, Hj; try lia;
      try reflexivity; vm_compute in H; discriminate H.
  - intros [|[|i]] Hi; cbn in Hi; try lia; reflexivity.
  - repeat constructor.
Defined.

(** ** The step model against [process_file] *)

(** X20.  For an image whose hash is [h] and whose capture date gives
    the date part [d], a call of [process_file] is one task of the
    statement-level model run without interruption: the dictionary
    ends the same, a task that ends as first-seen is the call that
    copies under the plain name, and a task that ends as duplicate
    with ordinal [n] is the call that copies under [_duplicate_n]. *)
Theorem process_file_refines_task (w : World) (path ext : string)
    (ie ve : list string) (d1 d2 : string) (st : state) (h d : string) :
  kind_of ext ie ve = Image ->
  average_hash w path = inr h ->
  format_date_taken (year_padded w) (image_date_taken w path) = inr d ->
  let r := process_file w path ext ie ve d1 d2 st in
  let done := complete (image_hashes st) (start h path) in
  image_hashes (state_of r) = done.1
  /\ match outcome_of done.2 with
     | Some FirstSeen =>
         copies (events_of r) = [(path, join d1 (plain_file_name d h ext))]
     | Some (Duplicate n original) =>
         copies (events_of r) = [(path, join d1 (duplicate_file_name d h n ext))]
         /\ (exists e, image_hashes st !! h = Some e /\ file_path e = original)
     | _ => False
     end.
Proof.
  intros Hk Hh Hd. cbv zeta.
  rewrite process_file_registry, process_file_copies, Hk, Hh, Hd.
  destruct (image_hashes st !! h) as [e|] eqn:He.
  - rewrite (complete_duplicate _ _ _ _ He). cbn [fst snd outcome_of w_pc].
    split; [reflexivity|]. split; [reflexivity|]. exists e. split; reflexivity.
  - rewrite (complete_first_seen _ _ _ He). cbn [fst snd outcome_of w_pc].
    split; reflexivity.
Qed.

Lemma process_file_refines_task_witness :
  let st := state_of (task Demo.world "out" ("in/a.jpg", ".jpg") initial_state) in
  image_hashes (state_of (process_file Demo.world "in/sub/b.JPG" ".jpg"
     image_extensions video_extensions "out/images" "out/videos" st))
  = (complete (image_hashes st) (start "ffd8c0c0e0f0f8fc" "in/sub/b.JPG")).1.
Proof.
  exact (proj1 (process_file_refines_task Demo.world "in/sub/b.JPG" ".jpg"
    image_extensions video_extensions "out/images" "out/videos"
    (state_of (task Demo.world "out" ("in/a.jpg", ".jpg") initial_state))
    "ffd8c0c0e0f0f8fc" "2023-05-01" eq_refl eq_refl eq_refl)).
Defined.
